(** * BudgetWise icon scripts: a shallow embedding and its properties

    The repository holds two Python scripts, [scripts/generate_icon.py] and
    [scripts/generate_store_assets.py].  Both draw the same badge with Pillow
    and save it at a fixed catalogue of sizes.  This development embeds the
    arithmetic of both scripts (Python integers as [Z], Python floats as
    IEEE-754 binary64 through Rocq's primitive floats), records every Pillow
    call the scripts make as a drawing command, and proves the properties of
    the layout from those definitions. *)

From Stdlib Require Import ZArith List String Bool Lia Floats QArith Qround.
From stdpp Require Import base gmap strings pretty.
Import ListNotations.
Open Scope Z_scope.
#[local] Set Warnings "-inexact-float".

(** ** Python values *)

Module Py.

(** The exceptions that the modelled statements can raise. *)
Inductive exc : Type :=
| ValueError
| OverflowError
| ZeroDivisionError
| IndexError
| OSError.

(** A statement either yields a value or raises. *)
Inductive result (A : Type) : Type :=
| Ok (a : A)
| Raise (e : exc).
Arguments Ok {A} a.
Arguments Raise {A} e.

Definition bind {A B : Type} (c : result A) (k : A -> result B) : result B :=
  match c with
  | Ok a => k a
  | Raise e => Raise e
  end.

(** [try: c except: h] with a bare [except]. *)
Definition try_except {A : Type} (c : result A) (h : result A) : result A :=
  match c with
  | Ok a => Ok a
  | Raise _ => h
  end.

(** A Python float is an IEEE-754 binary64 value.  Arithmetic follows the
    standard's specification ([SpecFloat], which also specifies Rocq's
    primitive floats); a literal of the source is the primitive float it
    denotes. *)
Definition float : Type := spec_float.

Definition literal (x : PrimFloat.float) : float := Prim2SF x.

(** An integer as a floating-point number with exponent 0, before rounding. *)
Definition exact (n : Z) : float :=
  match n with
  | Z0 => S754_zero false
  | Zpos p => S754_finite false p 0
  | Zneg p => S754_finite true p 0
  end.

Definition finite (x : float) : bool :=
  match x with
  | S754_zero _ | S754_finite _ _ _ => true
  | S754_infinity _ | S754_nan => false
  end.

(** [float(n)]: the binary64 nearest to [n] (ties to even); an integer
    beyond the range of binary64 raises [OverflowError]. *)
Definition float_of_int (n : Z) : result float :=
  let x := binary_normalize prec emax n 0 false in
  if finite x then Ok x else Raise OverflowError.

(** [int(x)]: truncation toward zero; [int(nan)] raises [ValueError] and
    [int(inf)] raises [OverflowError]. *)
Definition int (x : float) : result Z :=
  match x with
  | S754_zero _ => Ok 0
  | S754_finite s m e => Ok (cond_Zopp s (Z.shiftl (Zpos m) e))
  | S754_infinity _ => Raise OverflowError
  | S754_nan => Raise ValueError
  end.

(** [a / b] on two integers: the binary64 nearest to the exact quotient. *)
Definition truediv (a b : Z) : result float :=
  if b =? 0 then Raise ZeroDivisionError
  else
    let q := SFdiv prec emax (exact a) (exact b) in
    if finite q then Ok q else Raise OverflowError.

(** [n * x] and [n + x] with an integer on the left: the integer is
    converted first. *)
Definition mul_int_float (n : Z) (x : float) : result float :=
  bind (float_of_int n) (fun fn => Ok (SF64mul fn x)).

Definition add_int_float (n : Z) (x : float) : result float :=
  bind (float_of_int n) (fun fn => Ok (SF64add fn x)).

(** [range(start, 0, -1)]. *)
Fixpoint countdown (n : nat) : list Z :=
  match n with
  | O => []
  | S k => Z.of_nat (S k) :: countdown k
  end.

Definition range_down (start : Z) : list Z := countdown (Z.to_nat start).

(** A [for] loop whose body can raise: the results in iteration order. *)
Fixpoint for_each {A B : Type} (body : A -> result B) (l : list A) : result (list B) :=
  match l with
  | [] => Ok []
  | a :: l' =>
      bind (body a) (fun b => bind (for_each body l') (fun bs => Ok (b :: bs)))
  end.

End Py.

Notation "'let!' x ':=' c 'in' k" := (Py.bind c (fun x => k))
  (at level 10, x name, c at level 100, k at level 200).

(** ** The part of Pillow the scripts call

    Pillow is not part of the repository.  An image is kept as the canvas it
    was allocated with and the drawing calls made on it since, in call order;
    what a call does to single pixels is left to a rasteriser (section
    [Raster] below). *)

Module PIL.

(** An RGBA tuple. *)
Definition color : Type := Z * Z * Z * Z.

Definition alpha (c : color) : Z := snd c.

(** [[x0, y0, x1, y1]]. *)
Definition box : Type := Z * Z * Z * Z.

Inductive mode : Type := RGBA.

Inductive font : Type :=
| TrueType (file : string) (size : Z)
| DefaultFont.

Inductive image : Type :=
| Image (m : mode) (width height : Z) (background : color) (ops : list draw_op)
with draw_op : Type :=
| Ellipse (xy : box) (fill : color)
| RoundedRectangle (xy : box) (radius : Z) (fill : color)
| Line (xy : list (Z * Z)) (fill : color) (width : Z)
| Text (xy : Z * Z) (text : string) (fill : color) (f : font)
| Paste (im : image) (xy : Z * Z) (mask : image).

Definition im_mode (im : image) : mode := let 'Image m _ _ _ _ := im in m.
Definition width (im : image) : Z := let 'Image _ w _ _ _ := im in w.
Definition height (im : image) : Z := let 'Image _ _ h _ _ := im in h.
Definition background (im : image) : color := let 'Image _ _ _ c _ := im in c.
Definition ops (im : image) : list draw_op := let 'Image _ _ _ _ l := im in l.
Definition size (im : image) : Z * Z := (width im, height im).

(** [Image.new(mode, (w, h), color)]; a negative side raises [ValueError]. *)
Definition new (m : mode) (wh : Z * Z) (c : color) : Py.result image :=
  if (fst wh <? 0) || (snd wh <? 0) then Py.Raise Py.ValueError
  else Py.Ok (Image m (fst wh) (snd wh) c []).

(** Every drawing call mutates the image: the call is appended. *)
Definition draw (im : image) (op : draw_op) : image :=
  let 'Image m w h c l := im in Image m w h c (l ++ [op]).

(** What the scripts cannot see in their own text: which font files the
    machine has, and how large a text is in a font.  [measure f t] is
    [textbbox((0, 0), t, font=f)]. *)
Record environment : Type := {
  has_font : string -> bool;
  measure : font -> string -> box
}.

(** [ImageFont.truetype(file, size)]: [ValueError] for a size that is not
    positive, [OSError] for a file that cannot be opened. *)
Definition truetype (env : environment) (file : string) (sz : Z) : Py.result font :=
  if sz <=? 0 then Py.Raise Py.ValueError
  else if has_font env file then Py.Ok (TrueType file sz)
  else Py.Raise Py.OSError.

Definition load_default : font := DefaultFont.

(** [draw.textbbox(xy, text, font)]: the measured box, moved to [xy]. *)
Definition textbbox (env : environment) (xy : Z * Z) (t : string) (f : font) : box :=
  let '(l, u, r, b) := measure env f t in
  (fst xy + l, snd xy + u, fst xy + r, snd xy + b).

(** *** The ICO writer

    Pillow's documentation of [save(format='ICO', sizes=..., append_images=...)]:
    the sizes are taken as a set, in ascending order; any size bigger than
    the image being saved, or bigger than 256, is ignored; for every size
    kept, the frame is the first of the saved image and the appended images
    that has exactly this size, and a scaled copy of the saved image when
    there is none. *)

Inductive ico_frame : Type :=
| Provided (im : image)
| Scaled (im : image) (to : Z * Z).

Definition frame_size (f : ico_frame) : Z * Z :=
  match f with
  | Provided im => size im
  | Scaled _ to => to
  end.

Definition size_ltb (a b : Z * Z) : bool :=
  (fst a <? fst b) || ((fst a =? fst b) && (snd a <? snd b)).

Definition size_eqb (a b : Z * Z) : bool :=
  (fst a =? fst b) && (snd a =? snd b).

Fixpoint insert_size (a : Z * Z) (l : list (Z * Z)) : list (Z * Z) :=
  match l with
  | [] => [a]
  | b :: l' =>
      if size_eqb a b then l
      else if size_ltb a b then a :: l
      else b :: insert_size a l'
  end.

(** [sorted(set(sizes))]. *)
Definition sorted_set (l : list (Z * Z)) : list (Z * Z) :=
  fold_right insert_size [] l.

Definition ico_frames (im : image) (sizes : list (Z * Z)) (append_images : list image)
  : list ico_frame :=
  let provided := im :: append_images in
  flat_map
    (fun sz =>
       if (width im <? fst sz) || (height im <? snd sz)
          || (256 <? fst sz) || (256 <? snd sz)
       then []
       else
         match find (fun p => size_eqb (size p) sz) provided with
         | Some p => [Provided p]
         | None => [Scaled im sz]
         end)
    (sorted_set sizes).

End PIL.

(** ** Files and the console

    A path is the list of its components below the root.  The file system maps
    paths to directories and files; [stdout] holds the printed lines, oldest
    first.  The encoders of Pillow are functions of the image alone: nothing
    else (no clock, no random source) is passed to [save] by the scripts. *)

Module Os.
Import Py.

Definition path : Type := list string.

Inductive node : Type :=
| Dir
| File (data : string).

Record world : Type := {
  files : gmap path node;
  stdout : list string
}.

Record codec : Type := {
  png : PIL.image -> string;
  ico : list PIL.ico_frame -> string
}.

(** [os.path.join(p, *names)] and [os.path.dirname(p)]. *)
Definition join (p : path) (names : list string) : path := p ++ names.
Definition dirname (p : path) : path := removelast p.

Definition show (p : path) : string :=
  fold_right (fun name acc => ("/" ++ name ++ acc)%string) ""%string p.

Definition is_dir (fs : gmap path node) (p : path) : bool :=
  match p with
  | [] => true
  | _ => match fs !! p with Some Dir => true | _ => false end
  end.

(** [os.makedirs(p, exist_ok=True)]: every missing directory on the way
    is created; a file standing in the way raises. *)
Fixpoint makedirs_below (fs : gmap path node) (base : path) (names : list string)
  : result (gmap path node) :=
  match names with
  | [] => Ok fs
  | name :: rest =>
      let p := base ++ [name] in
      match fs !! p with
      | Some (File _) => Raise OSError
      | _ => makedirs_below (<[p := Dir]> fs) p rest
      end
  end.

Definition makedirs (w : world) (p : path) : result world :=
  let! fs := makedirs_below (files w) [] p in
  Ok {| files := fs; stdout := stdout w |}.

(** Opening [p] for writing and writing [data]: the directory of [p] must
    exist and [p] must not be a directory; an existing file is replaced. *)
Definition write (w : world) (p : path) (data : string) : result world :=
  match p with
  | [] => Raise OSError
  | _ =>
      if is_dir (files w) (dirname p)
      then
        match files w !! p with
        | Some Dir => Raise OSError
        | _ => Ok {| files := <[p := File data]> (files w); stdout := stdout w |}
        end
      else Raise OSError
  end.

Definition print (w : world) (line : string) : world :=
  {| files := files w; stdout := stdout w ++ [line] |}.

(** [img.save(p, "PNG")]. *)
Definition save_png (c : codec) (w : world) (p : path) (img : PIL.image) : result world :=
  write w p (png c img).

(** [img.save(p, format='ICO', sizes=sizes, append_images=more)]. *)
Definition save_ico (c : codec) (w : world) (p : path) (img : PIL.image)
    (sizes : list (Z * Z)) (more : list PIL.image) : result world :=
  write w p (ico c (PIL.ico_frames img sizes more)).

End Os.

(** ** The gradient, shared by both scripts (the loop bodies are identical) *)

Module Gradient.
Import Py PIL.

(** [int(lo + (hi - lo) * ratio)]. *)
Definition channel (lo hi : Z) (ratio : float) : result Z :=
  let! t := mul_int_float (hi - lo) ratio in
  let! s := add_int_float lo t in
  int s.

(** One iteration of the loop: the circle of radius [i]. *)
Definition circle (center circle_radius i : Z) : result draw_op :=
  let! ratio := truediv i circle_radius in
  let! r := channel 46 76 ratio in
  let! g := channel 125 175 ratio in
  let! b := channel 50 80 ratio in
  Ok (Ellipse (center - i, center - i, center + i, center + i) (r, g, b, 255)).

(** The loop over a list of radii, drawing on [img]. *)
Fixpoint loop (img : image) (center circle_radius : Z) (radii : list Z) : result image :=
  match radii with
  | [] => Ok img
  | i :: rest =>
      let! c := circle center circle_radius i in
      loop (draw img c) center circle_radius rest
  end.

(** [for i in range(circle_radius, 0, -1): ...]. *)
Definition fill (img : image) (center circle_radius : Z) : result image :=
  loop img center circle_radius (range_down circle_radius).

End Gradient.

(** ** scripts/generate_icon.py *)

Module Icon.
Import Py PIL.

Definition margin (size : Z) : Z := size / 16.
Definition center (size : Z) : Z := size / 2.
Definition circle_radius (size : Z) : Z := size / 2 - margin size.

Definition resolve_font (env : environment) (size : Z) : result font :=
  try_except (truetype env "segoeui.ttf" (size / 3))
    (try_except (truetype env "arial.ttf" (size / 3))
       (Ok load_default)).

Definition create_budget_icon (env : environment) (size : Z) : result image :=
  let! img := PIL.new RGBA (size, size) (0, 0, 0, 0) in
  let margin := margin size in
  let center := center size in
  let circle_radius := circle_radius size in
  let! img := Gradient.fill img center circle_radius in
  let env_margin := size / 5 in
  let env_top := size / 4 in
  let env_bottom := size - size / 6 in
  let corner_radius := size / 20 in
  let img := draw img (RoundedRectangle (env_margin, env_top, size - env_margin, env_bottom)
                         corner_radius (255, 255, 255, 245)) in
  let flap_points := [ (env_margin, env_top + size / 16);
                       (center, center - size / 16);
                       (size - env_margin, env_top + size / 16) ] in
  let img := draw img (Line flap_points (76, 175, 80, 255) (Z.max 2 (size / 40))) in
  let! font := resolve_font env size in
  let dollar_color := (46, 125, 50, 255) in
  let text := "$"%string in
  let '(b0, b1, b2, b3) := textbbox env (0, 0) text font in
  let text_width := b2 - b0 in
  let text_height := b3 - b1 in
  let text_x := center - text_width / 2 in
  let text_y := center - text_height / 4 in
  let img := draw img (Text (text_x, text_y) text dollar_color font) in
  let! line_y1 := (let! y := mul_int_float size (literal 0.58) in int y) in
  let! line_y2 := (let! y := mul_int_float size (literal 0.68) in int y) in
  let line_width := Z.max 1 (size / 50) in
  let accent_color := (129, 199, 132, 255) in
  let img := draw img (Line [ (env_margin + size / 10, line_y1); (center - size / 8, line_y1) ]
                         accent_color line_width) in
  let img := draw img (Line [ (center + size / 8, line_y1);
                              (size - env_margin - size / 10, line_y1) ]
                         accent_color line_width) in
  Ok img.

Definition sizes : list Z := [16; 24; 32; 48; 64; 128; 256].

(** The body of [for size in sizes], on the world and the list [images]. *)
Fixpoint render_all (env : environment) (c : Os.codec) (assets_dir : Os.path)
    (w : Os.world) (images : list image) (todo : list Z)
  : result (Os.world * list image) :=
  match todo with
  | [] => Ok (w, images)
  | size :: rest =>
      let! img := create_budget_icon env size in
      let images := images ++ [img] in
      if existsb (Z.eqb size) [32; 256]
      then
        let png_path :=
          Os.join assets_dir [("BudgetWise_" ++ pretty size ++ ".png")%string] in
        let! w := Os.save_png c w png_path img in
        let w := Os.print w ("Saved: " ++ Os.show png_path)%string in
        render_all env c assets_dir w images rest
      else render_all env c assets_dir w images rest
  end.

(** [images[0].save(p, format='ICO', sizes=[(img.width, img.height) for img
    in images], append_images=images[1:])]. *)
Definition save_all_sizes (c : Os.codec) (w : Os.world) (p : Os.path) (images : list image)
  : result Os.world :=
  match images with
  | [] => Raise IndexError
  | first :: more =>
      Os.save_ico c w p first (map (fun img => (width img, height img)) images) more
  end.

Definition main (env : environment) (c : Os.codec) (script_dir : Os.path) (w : Os.world)
  : result Os.world :=
  let project_root := Os.dirname script_dir in
  let assets_dir := Os.join project_root ["src"; "BudgetWise.App"; "Assets"]%string in
  let! w := Os.makedirs w assets_dir in
  let! r := render_all env c assets_dir w [] sizes in
  let '(w, images) := r in
  let ico_path := Os.join assets_dir ["BudgetWise.ico"%string] in
  let! w := save_all_sizes c w ico_path images in
  let w := Os.print w ("Saved: " ++ Os.show ico_path)%string in
  let root_ico :=
    Os.join project_root ["src"; "BudgetWise.App"; "BudgetWise.ico"]%string in
  let! w := save_all_sizes c w root_ico images in
  let w := Os.print w ("Saved: " ++ Os.show root_ico)%string in
  Ok w.

End Icon.

(** ** scripts/generate_store_assets.py *)

Module Store.
Import Py PIL.

(** [padding = int(size * padding_ratio)]. *)
Definition padding (size : Z) (padding_ratio : PrimFloat.float) : result Z :=
  let! x := mul_int_float size (literal padding_ratio) in int x.

Definition center (size : Z) : Z := size / 2.

Definition circle_radius (size : Z) (padding_ratio : PrimFloat.float) : result Z :=
  let! padding := padding size padding_ratio in
  let effective_size := size - 2 * padding in
  Ok (effective_size / 2).

(** [int(k * scale)]. *)
Definition scaled (k : Z) (scale : float) : result Z :=
  let! x := mul_int_float k scale in int x.

Definition resolve_font (env : environment) (scale : float) : result font :=
  try_except (let! font_size := scaled 85 scale in truetype env "segoeui.ttf" font_size)
    (try_except (let! font_size := scaled 85 scale in truetype env "arial.ttf" font_size)
       (Ok load_default)).

Definition create_budget_icon (env : environment) (size : Z) (padding_ratio : PrimFloat.float)
  : result image :=
  let! img := PIL.new RGBA (size, size) (0, 0, 0, 0) in
  let! padding := padding size padding_ratio in
  let effective_size := size - 2 * padding in
  let center := center size in
  let circle_radius := effective_size / 2 in
  let! img := Gradient.fill img center circle_radius in
  let! scale := truediv effective_size 256 in
  let! m := scaled 51 scale in
  let env_margin := m + padding in
  let! t := scaled 64 scale in
  let env_top := t + padding in
  let! b := scaled 43 scale in
  let env_bottom := size - b - padding in
  let! corner_radius := scaled 13 scale in
  let img := draw img (RoundedRectangle (env_margin, env_top, size - env_margin, env_bottom)
                         corner_radius (255, 255, 255, 245)) in
  let! flap_offset := scaled 6 scale in
  let! apex := scaled 6 scale in
  let flap_points := [ (env_margin, env_top + flap_offset);
                       (center, center - apex);
                       (size - env_margin, env_top + flap_offset) ] in
  let! w := scaled 6 scale in
  let img := draw img (Line flap_points (76, 175, 80, 255) (Z.max 2 w)) in
  let! font := resolve_font env scale in
  let dollar_color := (46, 125, 50, 255) in
  let text := "$"%string in
  let '(b0, b1, b2, b3) := textbbox env (0, 0) text font in
  let text_width := b2 - b0 in
  let text_height := b3 - b1 in
  let text_x := center - text_width / 2 in
  let text_y := center - text_height / 4 in
  let img := draw img (Text (text_x, text_y) text dollar_color font) in
  let! line_y1 := (let! y := mul_int_float size (literal 0.58) in int y) in
  let! lw := scaled 4 scale in
  let line_width := Z.max 1 lw in
  let accent_color := (129, 199, 132, 255) in
  let! l26 := scaled 26 scale in
  let left_start := env_margin + l26 in
  let! l32 := scaled 32 scale in
  let left_end := center - l32 in
  let! r32 := scaled 32 scale in
  let right_start := center + r32 in
  let! r26 := scaled 26 scale in
  let right_end := size - env_margin - r26 in
  let img := draw img (Line [ (left_start, line_y1); (left_end, line_y1) ]
                         accent_color line_width) in
  let img := draw img (Line [ (right_start, line_y1); (right_end, line_y1) ]
                         accent_color line_width) in
  Ok img.

(** [int(n * x)] for an integer [n] and a float literal [x]. *)
Definition int_times (n : Z) (x : PrimFloat.float) : result Z :=
  let! y := mul_int_float n (literal x) in int y.

Definition create_wide_tile (env : environment) (width height : Z) : result image :=
  let! img := PIL.new RGBA (width, height) (0, 0, 0, 0) in
  let! icon_size := int_times height 0.7%float in
  let! icon := create_budget_icon env icon_size 0.05%float in
  let! icon_x := int_times width 0.15%float in
  let icon_y := (height - icon_size) / 2 in
  let img := draw img (Paste icon (icon_x, icon_y) icon) in
  Ok img.

Definition create_splash_screen (env : environment) (width height : Z) : result image :=
  let! img := PIL.new RGBA (width, height) (0, 0, 0, 0) in
  let icon_size := Z.min width height / 2 in
  let! icon := create_budget_icon env icon_size 0.05%float in
  let icon_x := (width - icon_size) / 2 in
  let icon_y := (height - icon_size) / 2 in
  let img := draw img (Paste icon (icon_x, icon_y) icon) in
  Ok img.

Definition square_assets : list (string * Z) :=
  [ ("Square44x44Logo", 44);
    ("Square44x44Logo.targetsize-24_altform-unplated", 24);
    ("Square44x44Logo.targetsize-48_altform-unplated", 48);
    ("Square44x44Logo.targetsize-256_altform-unplated", 256);
    ("Square71x71Logo", 71);
    ("Square150x150Logo", 150);
    ("Square310x310Logo", 310);
    ("StoreLogo", 50);
    ("StoreLogo.scale-200", 100) ]%string.

Fixpoint render_squares (env : environment) (c : Os.codec) (assets_dir : Os.path)
    (w : Os.world) (todo : list (string * Z)) : result Os.world :=
  match todo with
  | [] => Ok w
  | (name, size) :: rest =>
      let! img := create_budget_icon env size 0.1%float in
      let path := Os.join assets_dir [(name ++ ".png")%string] in
      let! w := Os.save_png c w path img in
      let w := Os.print w ("Saved: " ++ Os.show path)%string in
      render_squares env c assets_dir w rest
  end.

Definition newline : string := String (Ascii.ascii_of_nat 10) EmptyString.

Definition main (env : environment) (c : Os.codec) (script_dir : Os.path) (w : Os.world)
  : result Os.world :=
  let project_root := Os.dirname script_dir in
  let assets_dir := Os.join project_root ["src"; "BudgetWise.App"; "Assets"]%string in
  let! w := Os.makedirs w assets_dir in
  let! w := render_squares env c assets_dir w square_assets in
  let! wide := create_wide_tile env 310 150 in
  let wide_path := Os.join assets_dir ["Wide310x150Logo.png"%string] in
  let! w := Os.save_png c w wide_path wide in
  let w := Os.print w ("Saved: " ++ Os.show wide_path)%string in
  let! splash := create_splash_screen env 620 300 in
  let splash_path := Os.join assets_dir ["SplashScreen.png"%string] in
  let! w := Os.save_png c w splash_path splash in
  let w := Os.print w ("Saved: " ++ Os.show splash_path)%string in
  let! badge := create_budget_icon env 24 0.05%float in
  let badge_path := Os.join assets_dir ["BadgeLogo.png"%string] in
  let! w := Os.save_png c w badge_path badge in
  let w := Os.print w ("Saved: " ++ Os.show badge_path)%string in
  let w := Os.print w (newline ++ "All store assets generated successfully!")%string in
  Ok w.

End Store.


(** ** Pixels

    What a drawing call does to the pixels is Pillow's business.  The
    development fixes only the geometric extent of each call (the set of pixels
    the shape can reach, with half a pixel of slack) and lets a rasteriser be
    any function that leaves the pixels outside the extent alone.  The
    reference rasteriser fills the extent with the call's colour. *)

Module Raster.
Import PIL.

Definition in_box (b : box) (x y : Z) : bool :=
  let '(x0, y0, x1, y1) := b in
  (x0 <=? x) && (x <=? x1) && (y0 <=? y) && (y <=? y1).






Record rasteriser : Type := {
  (** the colour of pixel [(x, y)] after a shape or text call, from the
      colour before *)
  paint : draw_op -> Z -> Z -> color -> color;
  (** [paste] with a mask: the colour below, the pasted colour, the mask
      value *)
  blend : color -> color -> Z -> color
}.

(** The colour of pixel [(x, y)] of an image: the background, changed by
    every call in turn.  [paste(im, (px, py), mask)] reaches the pixels of
    the pasted rectangle only. *)
Fixpoint pixel (R : rasteriser) (im : image) (x y : Z) {struct im} : color :=
  match im with
  | Image _ _ _ bg calls =>
      (fix run (l : list draw_op) (c : color) {struct l} : color :=
         match l with
         | [] => c
         | op :: rest =>
             run rest
               match op with
               | Paste src xy mask =>
                   if in_box (fst xy, snd xy, fst xy + width src - 1,
                              snd xy + height src - 1) x y
                   then blend R c (pixel R src (x - fst xy) (y - snd xy))
                          (alpha (pixel R mask (x - fst xy) (y - snd xy)))
                   else c
               | _ => paint R op x y c
               end
         end) calls bg
  end.

Definition on_canvas (im : image) (x y : Z) : Prop :=
  0 <= x < width im /\ 0 <= y < height im.





End Raster.

(** ** Vocabulary of the statements *)

Import Py PIL.

(** A binary64 value that is zero or finite and below [2 ^ K] in magnitude. *)
Definition small_sf (K : Z) (x : spec_float) : Prop :=
  match x with
  | S754_zero _ => True
  | S754_finite _ m e => Z.pos (digits2_pos m) + e <= K
  | _ => False
  end.

(** The invariant of the right shifts inside a rounding: a mantissa that is
    not negative and has at most [D] binary digits. *)
Definition shr_inv (D : Z) (r : shr_record) : Prop :=
  0 <= shr_m r /\ Zdigits2 (shr_m r) <= Z.max 0 D.

(** The circle the loop draws for radius [i]. *)
Definition circle_at (center circle_radius i : Z) (op : draw_op) : Prop :=
  exists ratio r g b,
    truediv i circle_radius = Ok ratio /\
    Gradient.channel 46 76 ratio = Ok r /\
    Gradient.channel 125 175 ratio = Ok g /\
    Gradient.channel 50 80 ratio = Ok b /\
    op = Ellipse (center - i, center - i, center + i, center + i) (r, g, b, 255).

(** Where the glyph is drawn: [(text_x, text_y)] of the scripts. *)
Definition glyph_position (env : environment) (size : Z) (f : font) : Z * Z :=
  let '(b0, b1, b2, b3) := textbbox env (0, 0) "$" f in
  (size / 2 - (b2 - b0) / 2, size / 2 - (b3 - b1) / 4).

(** The calls both scripts make, in order: the circles of the gradient, the
    envelope, the flap, the glyph, the two rows. *)
Definition badge_shape (env : environment) (size radius : Z) (img : image) : Prop :=
  exists circles body corner flap flap_width f row1 row2 row_width,
    img = Image RGBA size size (0, 0, 0, 0)
            (circles ++
             [ RoundedRectangle body corner (255, 255, 255, 245);
               Line flap (76, 175, 80, 255) flap_width;
               Text (glyph_position env size f) "$" (46, 125, 50, 255) f;
               Line row1 (129, 199, 132, 255) row_width;
               Line row2 (129, 199, 132, 255) row_width ]) /\
    Forall2 (circle_at (size / 2) radius) (range_down radius) circles /\
    length flap = 3%nat /\ 2 <= flap_width /\
    length row1 = 2%nat /\ length row2 = 2%nat /\ 1 <= row_width.


Definition no_fonts : environment :=
  {| has_font := fun _ => false; measure := fun _ _ => (0, 0, 6, 11) |}.


(** The float formula of one colour channel agrees with the exact linear
    interpolation, rounded down. *)
Definition channel_exact (lo hi i r : Z) : bool :=
  match truediv i r with
  | Ok ratio =>
      match Gradient.channel lo hi ratio with
      | Ok z => z =? lo + (hi - lo) * i / r
      | Raise _ => false
      end
  | Raise _ => false
  end.

Definition channels_exact_upto (n : nat) : bool :=
  forallb
    (fun r =>
       forallb
         (fun i => channel_exact 46 76 i r && channel_exact 125 175 i r
                   && channel_exact 50 80 i r)
         (range_down r))
    (map Z.of_nat (seq 1 n)).






(** A composite: a transparent RGBA canvas of [w] by [h] pixels whose only
    call pastes the square badge [icon], of side [side], at [(x, y)] with the
    badge itself as the mask; every pixel outside the pasted square keeps the
    transparent background, whatever the rasteriser. *)
Definition composite (w h side x y : Z) (icon img : image) : Prop :=
  im_mode img = RGBA /\ PIL.size img = (w, h) /\ background img = (0, 0, 0, 0) /\
  PIL.size icon = (side, side) /\
  ops img = [Paste icon (x, y) icon] /\
  forall R px py,
    Raster.in_box (x, y, x + side - 1, y + side - 1) px py = false ->
    Raster.pixel R img px py = (0, 0, 0, 0).

(** A codec for running the scripts: a PNG is stood for by its size, an icon
    container by its number of frames. *)
Definition counting_codec : Os.codec :=
  {| Os.png := fun img => pretty (width img);
     Os.ico := fun frames => pretty (Z.of_nat (length frames)) |}.

Definition empty_world : Os.world := {| Os.files := ∅; Os.stdout := [] |}.

Definition repo_scripts : Os.path := ["repo"; "scripts"]%string.

(** The conditions Pillow documents for the arguments of a drawing call: a
    box has [x1 >= x0] and [y1 >= y0], a corner radius is not negative, a line
    has at least two points and a width of at least one pixel. *)
Definition valid_call (op : draw_op) : bool :=
  match op with
  | Ellipse (x0, y0, x1, y1) _ => (x0 <=? x1) && (y0 <=? y1)
  | RoundedRectangle (x0, y0, x1, y1) radius _ =>
      (x0 <=? x1) && (y0 <=? y1) && (0 <=? radius)
  | Line pts _ w => (2 <=? length pts)%nat && (1 <=? w)
  | Text _ _ _ _ => true
  | Paste _ _ _ => true
  end.

(** ** Vocabulary of the runs *)

(** The directory both scripts write to. *)
Definition assets_dir (script_dir : Os.path) : Os.path :=
  Os.join (Os.dirname script_dir) ["src"; "BudgetWise.App"; "Assets"]%string.

#[global] Instance In_decision {A : Type} `{EqDecision A} (x : A) (l : list A)
  : Decision (In x l) := in_dec (fun a b => decide (a = b)) x l.

(** The directories [os.makedirs] walks through below [base]. *)
Fixpoint prefixes (base : Os.path) (names : list string) : list Os.path :=
  match names with
  | [] => []
  | name :: rest => (base ++ [name]) :: prefixes (base ++ [name]) rest
  end.

(** Saving files one after the other, each announced on the console. *)
Fixpoint save_each (w : Os.world) (l : list (Os.path * string)) : result Os.world :=
  match l with
  | [] => Ok w
  | (p, data) :: rest =>
      let! w := Os.write w p data in
      save_each (Os.print w ("Saved: " ++ Os.show p)%string) rest
  end.

Definition announced (l : list (Os.path * string)) : list string :=
  map (fun pd => ("Saved: " ++ Os.show (fst pd))%string) l.

(** The content of [q] after the files of [l] were written over [before]. *)
Fixpoint written (l : list (Os.path * string)) (q : Os.path) (before : option Os.node)
  : option Os.node :=
  match l with
  | [] => before
  | (p, data) :: rest =>
      written rest q (if decide (p = q) then Some (Os.File data) else before)
  end.

(** The files of the icon script, from its seven renderings. *)
Definition icon_files (c : Os.codec) (script_dir : Os.path) (images : list image)
  : list (Os.path * string) :=
  let container :=
    Os.ico c (ico_frames (nth 0 images (Image RGBA 0 0 (0, 0, 0, 0) []))
                (map (fun img => (width img, height img)) images) (tl images)) in
  [ (Os.join (assets_dir script_dir) ["BudgetWise_32.png"%string],
     Os.png c (nth 2 images (Image RGBA 0 0 (0, 0, 0, 0) [])));
    (Os.join (assets_dir script_dir) ["BudgetWise_256.png"%string],
     Os.png c (nth 6 images (Image RGBA 0 0 (0, 0, 0, 0) [])));
    (Os.join (assets_dir script_dir) ["BudgetWise.ico"%string], container);
    (Os.join (Os.dirname script_dir) ["src"; "BudgetWise.App"; "BudgetWise.ico"]%string,
     container) ].

(** The files of the store script, from its twelve renderings (the nine
    squares in catalogue order, then the wide tile, the splash screen and the
    badge). *)
Definition store_names : list string :=
  map (fun a => (fst a ++ ".png")%string) Store.square_assets
  ++ ["Wide310x150Logo.png"; "SplashScreen.png"; "BadgeLogo.png"]%string.

Definition store_files (c : Os.codec) (script_dir : Os.path) (images : list image)
  : list (Os.path * string) :=
  map (fun ni => (Os.join (assets_dir script_dir) [fst ni], Os.png c (snd ni)))
    (combine store_names images).

(** The renderings of the store script, in the order they are made. *)
Definition store_renderings (env : environment) : list (result image) :=
  map (fun a => Store.create_budget_icon env (snd a) 0.1%float) Store.square_assets
  ++ [ Store.create_wide_tile env 310 150;
       Store.create_splash_screen env 620 300;
       Store.create_budget_icon env 24 0.05%float ].

Definition final_line : string :=
  (Store.newline ++ "All store assets generated successfully!")%string.

(** A file system in which nothing stands in the way of a run that writes
    [targets] below the assets directory: no file where a directory is
    needed, no directory where a file is written. *)
Definition writable (script_dir : Os.path) (targets : list Os.path) (w : Os.world) : Prop :=
  (forall p data, In p (prefixes [] (assets_dir script_dir)) ->
                  Os.files w !! p <> Some (Os.File data)) /\
  (forall p, In p targets -> Os.files w !! p <> Some Os.Dir).

(** After the directories are there, a run that writes the files of [l]
    ends well exactly when no target is a directory; the targets lie in the
    assets directory or next to it. *)
Definition in_tree (script_dir : Os.path) (p : Os.path) : Prop :=
  (exists name, p = Os.join (assets_dir script_dir) [name]) \/
  (exists name, name <> "Assets"%string /\
                p = Os.join (Os.dirname script_dir) ["src"; "BudgetWise.App"; name]%string).


(** A run: the directories, then the files. *)
Definition run (d : Os.path) (l : list (Os.path * string)) (w : Os.world) : result Os.world :=
  let! w := Os.makedirs w (assets_dir d) in save_each w l.


Definition icon_targets (d : Os.path) : list Os.path :=
  [ Os.join (assets_dir d) ["BudgetWise_32.png"%string];
    Os.join (assets_dir d) ["BudgetWise_256.png"%string];
    Os.join (assets_dir d) ["BudgetWise.ico"%string];
    Os.join (Os.dirname d) ["src"; "BudgetWise.App"; "BudgetWise.ico"]%string ].


Definition store_targets (d : Os.path) : list Os.path :=
  map (fun name => Os.join (assets_dir d) [name]) store_names.

(** ** Vocabulary of exact binary64 arithmetic *)

(** [x] is the number [v / 2 ^ j], [v] not negative: its mantissa is [v]
    shifted to the left, its exponent is in the range of binary64. *)
Definition dyadic (x : Py.float) (v j : Z) : Prop :=
  match x with
  | S754_zero _ => v = 0
  | S754_finite s m e =>
      s = false /\ -1074 <= e <= - j /\ Z.pos (digits2_pos m) <= 53 /\
      Z.pos m = v * 2 ^ (- j - e)
  | _ => False
  end.

(** A shift record without lost bits. *)
Definition clean (m : Z) : shr_record := {| shr_m := m; shr_r := false; shr_s := false |}.

(** ** Vocabulary of the layout *)

(** The calls of the icon script after the gradient, for the font [f] it
    resolved and the height [y] of the rows. *)
Definition icon_calls (env : environment) (size : Z) (f : font) (y : Z) : list draw_op :=
  [ RoundedRectangle (size / 5, size / 4, size - size / 5, size - size / 6) (size / 20)
      (255, 255, 255, 245);
    Line [ (size / 5, size / 4 + size / 16);
           (size / 2, size / 2 - size / 16);
           (size - size / 5, size / 4 + size / 16) ]
      (76, 175, 80, 255) (Z.max 2 (size / 40));
    Text (glyph_position env size f) "$" (46, 125, 50, 255) f;
    Line [ (size / 5 + size / 10, y); (size / 2 - size / 8, y) ]
      (129, 199, 132, 255) (Z.max 1 (size / 50));
    Line [ (size / 2 + size / 8, y); (size - size / 5 - size / 10, y) ]
      (129, 199, 132, 255) (Z.max 1 (size / 50)) ].

(** The calls of the store script after the gradient, in integers: [p] is
    the padding, every constant [k] of the 256 pixel design is scaled to
    [k * (size - 2 * p) // 256]. *)
Definition store_calls (env : environment) (size p : Z) (f : font) (y : Z) : list draw_op :=
  let s := fun k => k * (size - 2 * p) / 256 in
  [ RoundedRectangle (s 51 + p, s 64 + p, size - (s 51 + p), size - s 43 - p) (s 13)
      (255, 255, 255, 245);
    Line [ (s 51 + p, s 64 + p + s 6);
           (size / 2, size / 2 - s 6);
           (size - (s 51 + p), s 64 + p + s 6) ]
      (76, 175, 80, 255) (Z.max 2 (s 6));
    Text (glyph_position env size f) "$" (46, 125, 50, 255) f;
    Line [ (s 51 + p + s 26, y); (size / 2 - s 32, y) ]
      (129, 199, 132, 255) (Z.max 1 (s 4));
    Line [ (size / 2 + s 32, y); (size - (s 51 + p) - s 26, y) ]
      (129, 199, 132, 255) (Z.max 1 (s 4)) ].




(** ** Vocabulary of the composites and of the fonts *)


(** The font both scripts end up with for a requested size [sz]: the first
    of the two TrueType files that is installed, at this size, when the size
    is positive; Pillow's default font otherwise. *)
Definition chosen_font (env : environment) (sz : Z) : font :=
  if (0 <? sz) && has_font env "segoeui.ttf" then TrueType "segoeui.ttf" sz
  else if (0 <? sz) && has_font env "arial.ttf" then TrueType "arial.ttf" sz
  else DefaultFont.

(** ** Vocabulary of the corners *)

(** A corner pixel of a square canvas. *)
Definition corner (size x y : Z) : Prop :=
  (x = 0 \/ x = size - 1) /\ (y = 0 \/ y = size - 1).



(** ** Vocabulary of the masked paste *)


(* ==== THEOREMS BELOW ==== *)

(** ** Binary64 arithmetic on small values never leaves the finite range *)

Lemma digits2_size p : digits2_pos p = Pos.size p.
Proof. induction p; simpl; congruence. Qed.

Lemma Zdigits2_log2 m : 0 < m -> Zdigits2 m = Z.log2 m + 1.
Proof.
  destruct m as [|p|p]; try lia. intros _. cbn [Zdigits2].
  rewrite digits2_size. destruct p; cbn [Pos.size Z.log2]; lia.
Qed.

Lemma Zdigits2_nonneg m : 0 <= Zdigits2 m.
Proof. destruct m; simpl; lia. Qed.

Lemma Zdigits2_succ m : 0 <= m -> Zdigits2 (m + 1) <= Zdigits2 m + 1.
Proof.
  intros H. destruct (Z.eq_dec m 0) as [->|]; [simpl; lia|].
  rewrite !Zdigits2_log2 by lia.
  pose proof (Z.log2_succ_le m) as Hs. unfold Z.succ in Hs. lia.
Qed.

Lemma Zdigits2_mono a b : 0 <= a <= b -> Zdigits2 a <= Zdigits2 b.
Proof.
  intros H. destruct (Z.eq_dec a 0) as [->|]; [apply Zdigits2_nonneg|].
  rewrite !Zdigits2_log2 by lia. pose proof (Z.log2_le_mono a b). lia.
Qed.

Lemma Zdigits2_mul a b : 0 < a -> 0 < b -> Zdigits2 (a * b) <= Zdigits2 a + Zdigits2 b.
Proof.
  intros. rewrite !Zdigits2_log2 by nia.
  pose proof (Z.log2_mul_above a b). lia.
Qed.

Lemma Zdigits2_shift a s : 0 < a -> 0 <= s -> Zdigits2 (a * 2 ^ s) = Zdigits2 a + s.
Proof.
  intros. assert (0 < 2 ^ s) by (apply Z.pow_pos_nonneg; lia).
  rewrite !Zdigits2_log2 by nia. rewrite Z.log2_mul_pow2 by lia. lia.
Qed.


Lemma shr_1_inv D r : shr_inv D r -> shr_inv (D - 1) (shr_1 r).
Proof.
  unfold shr_inv. destruct r as [m r s]. cbn [shr_m].
  destruct m as [|[p|p|]|p]; cbn [shr_1 shr_m Zdigits2 digits2_pos]; lia.
Qed.

Lemma iter_shr_inv n : forall D r, shr_inv D r -> shr_inv (D - Z.pos n) (SpecFloat.iter_pos shr_1 n r).
Proof.
  induction n as [n IH|n IH|]; intros D r H; cbn [SpecFloat.iter_pos].
  - replace (D - Z.pos n~1) with (D - 1 - Z.pos n - Z.pos n) by lia.
    apply IH, IH, shr_1_inv, H.
  - replace (D - Z.pos n~0) with (D - Z.pos n - Z.pos n) by lia.
    apply IH, IH, H.
  - apply shr_1_inv, H.
Qed.

Lemma shr_m_of_loc m l : shr_m (shr_record_of_loc m l) = m.
Proof. destruct l as [|[]]; reflexivity. Qed.

Lemma shr_fexp_bound m e l :
  0 <= m ->
  let r := fst (shr_fexp prec emax m e l) in
  let e' := snd (shr_fexp prec emax m e l) in
  0 <= shr_m r /\ e' = Z.max e (fexp prec emax (Zdigits2 m + e)) /\
  Zdigits2 (shr_m r) <= Z.max 0 (Zdigits2 m - (e' - e)).
Proof.
  intros Hm. unfold shr_fexp, shr.
  pose proof (Zdigits2_nonneg m) as Hd.
  destruct (fexp prec emax (Zdigits2 m + e) - e) as [|p|p] eqn:E; cbn [fst snd].
  - rewrite shr_m_of_loc. lia.
  - destruct (iter_shr_inv p (Zdigits2 m) (shr_record_of_loc m l)) as [H1 H2].
    { unfold shr_inv. rewrite shr_m_of_loc. lia. }
    lia.
  - rewrite shr_m_of_loc. lia.
Qed.

Lemma rne_bound m l : 0 <= m -> m <= round_nearest_even m l <= m + 1.
Proof.
  intros. unfold round_nearest_even. destruct l as [|[]]; try lia.
  destruct (Z.even m); lia.
Qed.


Lemma binary_round_aux_small s m e l K :
  0 <= m -> Zdigits2 m + e <= K -> -1074 <= K -> K <= 970 ->
  small_sf (K + 1) (binary_round_aux prec emax s m e l).
Proof.
  intros Hm Hd HK1 HK2. unfold binary_round_aux.
  pose proof (shr_fexp_bound m e l Hm) as H1. cbv zeta in H1.
  destruct (shr_fexp prec emax m e l) as [r1 e1]. cbn [fst snd] in H1.
  destruct H1 as (Hr1 & He1 & Hd1).
  pose proof (rne_bound (shr_m r1) (loc_of_shr_record r1) Hr1) as Hrne.
  set (m1 := round_nearest_even (shr_m r1) (loc_of_shr_record r1)) in *.
  assert (Hm1 : 0 <= m1) by lia.
  pose proof (shr_fexp_bound m1 e1 loc_Exact Hm1) as H2. cbv zeta in H2.
  destruct (shr_fexp prec emax m1 e1 loc_Exact) as [r2 e2]. cbn [fst snd] in H2.
  destruct H2 as (Hr2 & He2 & Hd2).
  pose proof (Zdigits2_mono m1 (shr_m r1 + 1) ltac:(lia)) as Hmono.
  pose proof (Zdigits2_succ (shr_m r1) Hr1) as Hsucc.
  pose proof (Zdigits2_nonneg m) as Hn0.
  pose proof (Zdigits2_nonneg m1) as Hn1.
  pose proof (Zdigits2_nonneg (shr_m r1)) as Hn2.
  unfold fexp, emin, prec, emax in *.
  destruct (shr_m r2) as [|p|p] eqn:Ep; cbn [small_sf]; try lia.
  cbn [Zdigits2] in Hd2.
  assert (e2 <= 1024 - 53) by lia.
  destruct (e2 <=? 1024 - 53) eqn:Ele; [|lia].
  cbn [small_sf]. lia.
Qed.


Lemma small_sf_mono K K' x : K <= K' -> small_sf K x -> small_sf K' x.
Proof. destruct x; cbn [small_sf]; auto; lia. Qed.

Lemma small_finite K x : small_sf K x -> Py.finite x = true.
Proof. destruct x; cbn; auto; contradiction. Qed.

Lemma binary_round_aux_small' s m e l K :
  0 <= m -> Zdigits2 m + e <= K -> K <= 970 ->
  small_sf (Z.max K (-1074) + 1) (binary_round_aux prec emax s m e l).
Proof. intros. apply binary_round_aux_small; lia. Qed.

Lemma mul_small a b x y :
  small_sf a x -> small_sf b y -> a + b <= 970 ->
  small_sf (Z.max (a + b) (-1074) + 1) (SF64mul x y).
Proof.
  intros Hx Hy Hab. unfold SF64mul, SFmul.
  destruct x as [sx|sx| |sx mx ex], y as [sy|sy| |sy my ey]; cbn [small_sf] in *; auto; try contradiction.
  apply binary_round_aux_small'; try lia.
  pose proof (Zdigits2_mul (Z.pos mx) (Z.pos my) ltac:(lia) ltac:(lia)) as H.
  change (Z.pos mx * Z.pos my) with (Z.pos (mx * my)) in H.
  cbn [Zdigits2] in *. lia.
Qed.

Lemma iter_xO_digits d : forall m, Z.pos (digits2_pos (Pos.iter xO m d)) = Z.pos (digits2_pos m) + Z.pos d.
Proof.
  induction d using Pos.peano_ind; intros m.
  - cbn. lia.
  - rewrite Pos.iter_succ. cbn [digits2_pos]. rewrite Pos2Z.inj_succ, IHd. lia.
Qed.

Lemma shl_align_mag m e e' :
  Z.pos (digits2_pos (fst (shl_align m e e'))) + snd (shl_align m e e') = Z.pos (digits2_pos m) + e.
Proof.
  unfold shl_align. destruct (e' - e) as [|p|p] eqn:E; cbn [fst snd]; try lia.
  rewrite iter_xO_digits. lia.
Qed.

Lemma binary_round_small s m e K :
  Z.pos (digits2_pos m) + e <= K -> K <= 970 ->
  small_sf (Z.max K (-1074) + 1) (binary_round prec emax s m e).
Proof.
  intros H HK. unfold binary_round.
  pose proof (shl_align_mag m e (fexp prec emax (Z.pos (digits2_pos m) + e))) as Hs.
  destruct (shl_align m e _) as [mz ez]. cbn [fst snd] in Hs.
  apply binary_round_aux_small'; cbn [Zdigits2]; lia.
Qed.

Lemma binary_normalize_small m e K :
  Zdigits2 m + e <= K -> K <= 970 ->
  small_sf (Z.max K (-1074) + 1) (binary_normalize prec emax m e false).
Proof.
  intros H HK. destruct m as [|p|p]; cbn [binary_normalize small_sf]; auto;
    apply binary_round_small; cbn [Zdigits2] in H; lia.
Qed.

Lemma Zdigits2_lt_pow2 m k : 0 <= k -> Z.abs m < 2 ^ k -> Zdigits2 m <= k.
Proof.
  intros Hk H. destruct m as [|p|p]; cbn [Zdigits2]; try lia.
  - change (Zdigits2 (Z.pos p) <= k). rewrite Zdigits2_log2 by lia.
    change (Z.abs (Z.pos p)) with (Z.pos p) in H.
    apply Z.log2_lt_pow2 in H; lia.
  - change (Zdigits2 (Z.pos p) <= k). rewrite Zdigits2_log2 by lia.
    change (Z.abs (Z.neg p)) with (Z.pos p) in H.
    apply Z.log2_lt_pow2 in H; lia.
Qed.

Lemma float_of_int_small n k :
  0 <= k <= 970 -> Z.abs n < 2 ^ k ->
  exists x, Py.float_of_int n = Py.Ok x /\ small_sf (k + 1) x.
Proof.
  intros Hk Hn. unfold Py.float_of_int.
  pose proof (binary_normalize_small n 0 k) as H.
  pose proof (Zdigits2_lt_pow2 n k ltac:(lia) Hn).
  replace (Z.max k (-1074) + 1) with (k + 1) in H by lia.
  specialize (H ltac:(lia) ltac:(lia)).
  rewrite (small_finite _ _ H). eauto.
Qed.

Lemma add_small a b x y K :
  small_sf a x -> small_sf b y -> a <= K -> b <= K -> -1074 <= K -> K <= 969 ->
  small_sf (K + 2) (SF64add x y).
Proof.
  intros Hx Hy Ha Hb HK1 HK2. unfold SF64add, SFadd.
  destruct x as [sx|sx| |sx mx ex], y as [sy|sy| |sy my ey]; cbn [small_sf] in *; auto; try contradiction;
    try (destruct sx, sy; cbn [small_sf]; auto; fail); try lia.
  set (ez := Z.min ex ey).
  pose proof (shl_align_mag mx ex ez) as Hsx.
  pose proof (shl_align_mag my ey ez) as Hsy.
  assert (Ex : snd (shl_align mx ex ez) = ez).
  { unfold shl_align. destruct (ez - ex) eqn:E; cbn [snd]; lia. }
  assert (Ey : snd (shl_align my ey ez) = ez).
  { unfold shl_align. destruct (ez - ey) eqn:E; cbn [snd]; lia. }
  rewrite Ex in Hsx. rewrite Ey in Hsy.
  set (ax := fst (shl_align mx ex ez)) in *. set (ay := fst (shl_align my ey ez)) in *.
  pose proof (binary_normalize_small (cond_Zopp sx (Z.pos ax) + cond_Zopp sy (Z.pos ay)) ez (K + 1)) as H.
  replace (Z.max (K + 1) (-1074) + 1) with (K + 2) in H by lia.
  apply H; [|lia].
  set (c := Z.max (Z.pos ax) (Z.pos ay)).
  assert (Hc : Zdigits2 c <= K - ez).
  { unfold c. destruct (Z.max_spec (Z.pos ax) (Z.pos ay)) as [[_ ->]|[_ ->]]; cbn [Zdigits2]; lia. }
  pose proof (Zdigits2_shift c 1 ltac:(lia) ltac:(lia)) as Hsh.
  assert (Hle : Zdigits2 (Z.abs (cond_Zopp sx (Z.pos ax) + cond_Zopp sy (Z.pos ay))) <= Zdigits2 (c * 2 ^ 1)).
  { apply Zdigits2_mono. unfold cond_Zopp. destruct sx, sy; lia. }
  assert (Habs : forall z, Zdigits2 (Z.abs z) = Zdigits2 z) by (intros []; reflexivity).
  rewrite Habs in Hle. lia.
Qed.

Lemma truediv_small a b k :
  b <> 0 -> 0 <= k <= 970 -> Z.abs a < 2 ^ k ->
  exists q, Py.truediv a b = Py.Ok q /\ small_sf (k + 1) q.
Proof.
  intros Hb Hk Ha. unfold Py.truediv.
  destruct (Z.eqb_spec b 0) as [|_]; [contradiction|].
  assert (H : small_sf (k + 1) (SFdiv prec emax (Py.exact a) (Py.exact b))).
  { pose proof (Zdigits2_lt_pow2 a k ltac:(lia) Ha) as Hd.
    destruct a as [|pa|pa], b as [|pb|pb]; try contradiction; cbn [Py.exact SFdiv small_sf]; auto.
    all: unfold SFdiv_core_binary;
      set (e' := Z.min _ _);
      set (s := 0 - 0 - e');
      assert (He' : e' <= 0) by (unfold e'; lia);
      set (m' := match s with Z.pos _ => Z.shiftl (Z.pos pa) s | 0 => Z.pos pa | Z.neg _ => 0 end);
      assert (Hm' : m' = Z.pos pa * 2 ^ s)
        by (unfold m'; destruct s eqn:Es; [rewrite Z.mul_1_r; reflexivity | rewrite Z.shiftl_mul_pow2 by lia; reflexivity | lia]);
      pose proof (Z_div_mod m' (Z.pos pb) ltac:(lia)) as Hdiv;
      destruct (Z.div_eucl m' (Z.pos pb)) as [q r];
      assert (Hs0 : 0 <= s) by (unfold s; lia);
      assert (Hpow : 0 < 2 ^ s) by (apply Z.pow_pos_nonneg; lia);
      assert (Hq : 0 <= q <= m') by nia;
      pose proof (Zdigits2_mono q m' Hq) as Hmono;
      pose proof (Zdigits2_shift (Z.pos pa) s ltac:(lia) Hs0) as Hsh;
      rewrite <- Hm' in Hsh; cbn [Zdigits2] in Hsh, Hd;
      pose proof (binary_round_aux_small' ) as Hbra;
      match goal with |- small_sf _ (binary_round_aux _ _ ?sg _ _ ?l) =>
        specialize (Hbra sg q e' l k ltac:(lia) ltac:(unfold s in *; lia) ltac:(lia)) end;
      replace (Z.max k (-1074) + 1) with (k + 1) in Hbra by lia; exact Hbra. }
  rewrite (small_finite _ _ H). eauto.
Qed.

Lemma int_small K x :
  0 <= K -> small_sf K x -> exists z, Py.int x = Py.Ok z /\ Z.abs z < 2 ^ K.
Proof.
  intros HK H. destruct x as [s|s| |s m e]; cbn [small_sf Py.int] in *; try contradiction.
  - exists 0. split; [reflexivity|]. cbn. apply Z.pow_pos_nonneg; lia.
  - eexists. split; [reflexivity|].
    assert (Hm : Z.pos m < 2 ^ Z.pos (digits2_pos m)).
    { rewrite digits2_size. pose proof (Pos.size_gt m) as G.
      apply Pos2Z.pos_lt_pos in G. rewrite Pos2Z.inj_pow in G. exact G. }
    assert (Habs : Z.abs (cond_Zopp s (Z.shiftl (Z.pos m) e)) = Z.shiftl (Z.pos m) e).
    { pose proof (Z.shiftl_nonneg (Z.pos m) e). unfold cond_Zopp. destruct s; lia. }
    rewrite Habs.
    destruct (Z_le_gt_dec 0 e) as [He|He].
    + rewrite Z.shiftl_mul_pow2 by lia.
      apply Z.lt_le_trans with (2 ^ Z.pos (digits2_pos m) * 2 ^ e).
      * apply Z.mul_lt_mono_pos_r; [apply Z.pow_pos_nonneg; lia|exact Hm].
      * rewrite <- Z.pow_add_r by lia. apply Z.pow_le_mono_r; lia.
    + rewrite Z.shiftl_div_pow2 by lia.
      apply Z.div_lt_upper_bound; [apply Z.pow_pos_nonneg; lia|].
      apply Z.lt_le_trans with (2 ^ Z.pos (digits2_pos m)); [exact Hm|].
      rewrite <- Z.pow_add_r by lia. apply Z.pow_le_mono_r; lia.
Qed.

Lemma compare_cont_lt m q : Pos.compare_cont Eq m q = Lt -> Z.pos m < Z.pos q.
Proof.
  rewrite Pos.compare_cont_spec. unfold Pos.switch_Eq.
  destruct (m ?= q)%positive eqn:E; try discriminate. intros _.
  apply Pos.compare_lt_iff in E. apply Pos2Z.pos_lt_pos in E. exact E.
Qed.

Lemma unit_interval_small pr :
  PrimFloat.leb 0 pr = true -> PrimFloat.ltb pr 1 = true -> small_sf 0 (Py.literal pr).
Proof.
  rewrite leb_spec, ltb_spec. unfold Py.literal.
  pose proof (Prim2SF_valid pr) as Hv.
  assert (E0 : Prim2SF 0 = S754_zero false) by (vm_compute; reflexivity).
  assert (E1 : Prim2SF 1 = S754_finite false 4503599627370496 (-52))
    by (vm_compute; reflexivity).
  rewrite E0, E1. clear E0 E1.
  destruct (Prim2SF pr) as [s|s| |s m e]; cbn [small_sf]; auto.
  - unfold SFltb, SFcompare. destruct s; discriminate.
  - unfold SFleb, SFcompare. discriminate.
  - unfold SFleb, SFltb, SFcompare. destruct s; [discriminate|]. intros _.
    cbn [valid_binary] in Hv. unfold bounded, canonical_mantissa in Hv.
    apply andb_prop in Hv. destruct Hv as [Hc _]. apply Z.eqb_eq in Hc.
    unfold fexp, emin, prec, emax in Hc.
    destruct (Z.compare_spec e (-52)) as [He|He|He].
    + intros Hm. subst e.
      destruct (Pos.compare_cont Eq m 4503599627370496) eqn:E;
        [discriminate Hm| |discriminate Hm].
      apply compare_cont_lt in E.
      assert (Hl : Z.abs (Z.pos m) < 2 ^ 52).
      { replace (2 ^ 52) with 4503599627370496 by (vm_compute; reflexivity). exact E. }
      pose proof (Zdigits2_lt_pow2 (Z.pos m) 52 ltac:(lia) Hl) as Hd.
      cbn [Zdigits2] in Hd. lia.
    + intros _. lia.
    + intros Hm. discriminate Hm.
Qed.

(** ** The gradient loop *)

Ltac bind_inv H :=
  match type of H with
  | Py.bind ?c _ = Ok _ =>
      let E := fresh "E" in
      destruct c eqn:E; cbn [Py.bind] in H; [|discriminate H]
  end.

Lemma circle_inv c r i op : Gradient.circle c r i = Ok op -> circle_at c r i op.
Proof.
  unfold Gradient.circle. intros H.
  bind_inv H. bind_inv H. bind_inv H. bind_inv H.
  injection H as <-. unfold circle_at. eauto 10.
Qed.

Lemma draw_ops img op : ops (draw img op) = ops img ++ [op].
Proof. destruct img; reflexivity. Qed.

Lemma loop_inv radii : forall img c r img',
  Gradient.loop img c r radii = Ok img' ->
  exists circles,
    img' = fold_left draw circles img /\ Forall2 (circle_at c r) radii circles.
Proof.
  induction radii as [|i rest IH]; intros img c r img' H; cbn [Gradient.loop] in H.
  - injection H as <-. exists []. split; [reflexivity|constructor].
  - bind_inv H. apply IH in H. destruct H as (circles & -> & HF).
    exists (a :: circles). split; [reflexivity|].
    constructor; [apply circle_inv; assumption|assumption].
Qed.

Lemma fold_draw calls : forall m w h bg l,
  fold_left draw calls (Image m w h bg l) = Image m w h bg (l ++ calls).
Proof.
  induction calls as [|op calls IH]; intros; cbn [fold_left].
  - rewrite app_nil_r. reflexivity.
  - cbn [draw]. rewrite IH, <- app_assoc. reflexivity.
Qed.

Lemma channel_ok lo hi ratio K :
  Z.abs (hi - lo) < 2 ^ 8 -> Z.abs lo < 2 ^ 8 -> -1000 <= K <= 900 -> small_sf K ratio ->
  exists z, Gradient.channel lo hi ratio = Ok z.
Proof.
  intros Hd Hl HK Hr. unfold Gradient.channel, mul_int_float, add_int_float.
  destruct (float_of_int_small (hi - lo) 8 ltac:(lia) Hd) as (fd & -> & Hfd).
  destruct (float_of_int_small lo 8 ltac:(lia) Hl) as (fl & -> & Hfl).
  cbn [Py.bind].
  pose proof (mul_small 9 K _ _ Hfd Hr ltac:(lia)) as Hm.
  pose proof (add_small 9 _ _ _ 920 Hfl Hm ltac:(lia) ltac:(lia) ltac:(lia) ltac:(lia)) as Ha.
  destruct (int_small 922 _ ltac:(lia) Ha) as (z & -> & _). eauto.
Qed.

Lemma circle_ok c r i :
  r <> 0 -> Z.abs i < 2 ^ 64 -> exists op, Gradient.circle c r i = Ok op.
Proof.
  intros Hr Hi. unfold Gradient.circle.
  destruct (truediv_small i r 64 Hr ltac:(lia) Hi) as (q & -> & Hq). cbn [Py.bind].
  destruct (channel_ok 46 76 q 65 ltac:(cbn; lia) ltac:(cbn; lia) ltac:(lia) Hq) as (zr & -> ).
  destruct (channel_ok 125 175 q 65 ltac:(cbn; lia) ltac:(cbn; lia) ltac:(lia) Hq) as (zg & -> ).
  destruct (channel_ok 50 80 q 65 ltac:(cbn; lia) ltac:(cbn; lia) ltac:(lia) Hq) as (zb & -> ).
  cbn [Py.bind]. eauto.
Qed.

Lemma loop_ok radii : forall img c r,
  r <> 0 -> Forall (fun i => Z.abs i < 2 ^ 64) radii ->
  exists img', Gradient.loop img c r radii = Ok img'.
Proof.
  induction radii as [|i rest IH]; intros img c r Hr HF; cbn [Gradient.loop].
  - eauto.
  - inversion HF as [|? ? Hi HF']; subst.
    destruct (circle_ok c r i Hr Hi) as (op & ->). cbn [Py.bind]. apply IH; assumption.
Qed.

Lemma countdown_bounds n : Forall (fun i => 1 <= i <= Z.of_nat n) (countdown n).
Proof.
  induction n as [|n IH]; cbn [countdown]; constructor.
  - lia.
  - eapply Forall_impl; [exact IH|]. cbn. intros; lia.
Qed.

Lemma fill_ok img c r : Z.abs r < 2 ^ 64 -> exists img', Gradient.fill img c r = Ok img'.
Proof.
  intros Hr. unfold Gradient.fill, range_down.
  destruct (Z_le_gt_dec r 0) as [H|H].
  - replace (Z.to_nat r) with 0%nat by lia. cbn. eauto.
  - apply loop_ok; [lia|].
    eapply Forall_impl; [apply countdown_bounds|]. cbn. intros i Hi. lia.
Qed.

Lemma fill_inv img c r img' :
  Gradient.fill img c r = Ok img' ->
  exists circles,
    img' = fold_left draw circles img /\ Forall2 (circle_at c r) (range_down r) circles.
Proof. apply loop_inv. Qed.

(** ** The icon script's badge *)




Lemma new_inv m wh c img : PIL.new m wh c = Ok img -> img = Image m (fst wh) (snd wh) c [].
Proof. unfold PIL.new. destruct (_ || _); [discriminate|]. intros H; injection H as <-. reflexivity. Qed.

Lemma new_ok m w h c : 0 <= w -> 0 <= h -> PIL.new m (w, h) c = Ok (Image m w h c []).
Proof.
  intros Hw Hh. unfold PIL.new. cbn [fst snd].
  destruct (Z.ltb_spec w 0); [lia|]. destruct (Z.ltb_spec h 0); [lia|]. reflexivity.
Qed.

Lemma Icon_resolve_font_ok env size : exists f, Icon.resolve_font env size = Ok f.
Proof.
  unfold Icon.resolve_font, try_except.
  destruct (truetype env "segoeui.ttf" (size / 3)); eauto.
  destruct (truetype env "arial.ttf" (size / 3)); eauto.
Qed.

Lemma Icon_create_inv env size img :
  Icon.create_budget_icon env size = Ok img ->
  badge_shape env size (Icon.circle_radius size) img.
Proof.
  unfold Icon.create_budget_icon. intros H.
  bind_inv H. apply new_inv in E. cbn [fst snd] in E. subst a.
  bind_inv H. apply fill_inv in E. destruct E as (circles & -> & HF).
  bind_inv H.
  destruct (textbbox env (0, 0) "$" a) as [[[b0 b1] b2] b3] eqn:Eb.
  bind_inv H. bind_inv H. injection H as <-.
  rewrite fold_draw. cbn [draw app].
  unfold badge_shape.
  exists circles. do 4 eexists. exists a. do 3 eexists.
  split; [|split; [exact HF|]].
  - rewrite <- !app_assoc. cbn [app]. unfold glyph_position. rewrite Eb.
    unfold Icon.center. reflexivity.
  - cbn [length]. repeat split; lia.
Qed.

Lemma literal_small x K :
  match Prim2SF x with
  | S754_zero _ => true
  | S754_finite _ m e => Z.pos (digits2_pos m) + e <=? K
  | _ => false
  end = true -> small_sf K (literal x).
Proof.
  unfold literal. destruct (Prim2SF x); cbn [small_sf]; try discriminate; auto.
  intros H. apply Z.leb_le in H. exact H.
Qed.

Lemma int_times_ok n x K :
  Z.abs n < 2 ^ 64 -> small_sf K x -> -1000 <= K <= 900 ->
  exists z, (let! y := mul_int_float n x in int y) = Ok z /\ Z.abs z < 2 ^ 970.
Proof.
  intros Hn Hx HK. unfold mul_int_float.
  destruct (float_of_int_small n 64 ltac:(lia) Hn) as (fn & -> & Hfn). cbn [Py.bind].
  pose proof (mul_small 65 K _ _ Hfn Hx ltac:(lia)) as Hm.
  destruct (int_small 970 _ ltac:(lia) (small_sf_mono (Z.max (65 + K) (-1074) + 1) 970 _ ltac:(lia) Hm)) as (z & -> & Hz).
  eauto.
Qed.

Lemma Icon_create_ok env size :
  0 <= size < 2 ^ 31 -> exists img, Icon.create_budget_icon env size = Ok img.
Proof.
  intros Hs. unfold Icon.create_budget_icon.
  rewrite new_ok by lia. cbn [Py.bind].
  assert (Hb : 2 ^ 31 < 2 ^ 64) by (apply Z.pow_lt_mono_r; lia).
  destruct (fill_ok (Image RGBA size size (0, 0, 0, 0) []) (Icon.center size)
              (Icon.circle_radius size)) as (img1 & ->).
  { unfold Icon.circle_radius, Icon.margin.
    pose proof (Z.div_pos size 16 ltac:(lia) ltac:(lia)).
    pose proof (Z.div_le_upper_bound size 2 size ltac:(lia) ltac:(lia)).
    pose proof (Z.div_le_mono 0 size 2 ltac:(lia) ltac:(lia)).
    pose proof (Z.div_le_mono (size / 16 * 2) size 2 ltac:(lia)) as Hq.
    assert (size / 16 <= size / 2).
    { apply Z.div_le_lower_bound; [lia|].
      pose proof (Z.mul_div_le size 16 ltac:(lia)). lia. }
    lia. }
  cbn [Py.bind].
  destruct (Icon_resolve_font_ok env size) as (f & ->). cbn [Py.bind].
  destruct (textbbox env (0, 0) "$" f) as [[[b0 b1] b2] b3].
  destruct (int_times_ok size (literal 0.58) 0) as (y1 & -> & _);
    [lia | apply literal_small; vm_compute; reflexivity | lia |].
  cbn [Py.bind].
  destruct (int_times_ok size (literal 0.68) 0) as (y2 & -> & _);
    [lia | apply literal_small; vm_compute; reflexivity | lia |].
  cbn [Py.bind]. eauto.
Qed.

(** ** The store script's badge *)

Lemma int_times_bound n x a K B :
  0 <= a <= 64 -> Z.abs n < 2 ^ a -> small_sf K x -> -1000 <= K <= 900 ->
  Z.max (a + 1 + K) (-1074) + 1 <= B -> 0 <= B <= 970 ->
  exists z, (let! y := mul_int_float n x in int y) = Ok z /\ Z.abs z < 2 ^ B.
Proof.
  intros Ha Hn Hx HK HB1 HB2. unfold mul_int_float.
  destruct (float_of_int_small n a ltac:(lia) Hn) as (fn & -> & Hfn). cbn [Py.bind].
  pose proof (mul_small (a + 1) K _ _ Hfn Hx ltac:(lia)) as Hm.
  destruct (int_small B _ ltac:(lia) (small_sf_mono (Z.max (a + 1 + K) (-1074) + 1) B _ ltac:(lia) Hm))
    as (z & -> & Hz).
  eauto.
Qed.

Lemma scaled_ok k scale :
  Z.abs k < 2 ^ 8 -> small_sf 70 scale -> exists z, Store.scaled k scale = Ok z.
Proof.
  intros Hk Hs. unfold Store.scaled.
  destruct (int_times_bound k scale 8 70 100) as (z & -> & _); try lia; eauto.
Qed.

Lemma Store_resolve_font_ok env scale : exists f, Store.resolve_font env scale = Ok f.
Proof.
  unfold Store.resolve_font, try_except.
  destruct (let! font_size := Store.scaled 85 scale in truetype env "segoeui.ttf" font_size); eauto.
  destruct (let! font_size := Store.scaled 85 scale in truetype env "arial.ttf" font_size); eauto.
Qed.

Lemma Store_create_inv env size pr img :
  Store.create_budget_icon env size pr = Ok img ->
  exists padding,
    Store.padding size pr = Ok padding /\
    badge_shape env size ((size - 2 * padding) / 2) img.
Proof.
  unfold Store.create_budget_icon. intros H.
  bind_inv H. apply new_inv in E. cbn [fst snd] in E. subst a.
  bind_inv H. rename a into padding. exists padding. split; [reflexivity|].
  bind_inv H. apply fill_inv in E0. destruct E0 as (circles & -> & HF).
  repeat bind_inv H.
  match type of H with
  | context [textbbox env (0, 0) "$" ?f] =>
      destruct (textbbox env (0, 0) "$" f) as [[[b0 b1] b2] b3] eqn:Eb
  end.
  repeat bind_inv H. injection H as <-.
  rewrite fold_draw. cbn [draw app].
  unfold badge_shape.
  exists circles. do 8 eexists.
  split; [|split; [exact HF|]].
  - rewrite <- !app_assoc. cbn [app]. unfold glyph_position. rewrite Eb.
    unfold Store.center. reflexivity.
  - cbn [length]. repeat split; lia.
Qed.

Lemma Store_create_ok env size pr :
  0 <= size < 2 ^ 31 -> small_sf 0 (literal pr) ->
  exists img, Store.create_budget_icon env size pr = Ok img.
Proof.
  intros Hs Hpr. unfold Store.create_budget_icon, Store.padding.
  rewrite new_ok by lia. cbn [Py.bind].
  destruct (int_times_bound size (literal pr) 31 0 33) as (p & -> & Hp); try lia; try assumption.
  cbn [Py.bind].
  assert (He : Z.abs (size - 2 * p) < 2 ^ 35) by lia.
  destruct (fill_ok (Image RGBA size size (0, 0, 0, 0) []) (Store.center size)
              ((size - 2 * p) / 2)) as (img1 & ->).
  { pose proof (Z.div_mod (size - 2 * p) 2 ltac:(lia)).
    pose proof (Z.mod_pos_bound (size - 2 * p) 2 ltac:(lia)). lia. }
  cbn [Py.bind].
  destruct (truediv_small (size - 2 * p) 256 35 ltac:(lia) ltac:(lia) He) as (scale & -> & Hsc).
  cbn [Py.bind].
  apply (small_sf_mono _ 70) in Hsc; [|lia].
  repeat match goal with
         | |- context [Store.scaled ?k scale] =>
             let z := fresh "z" in
             destruct (scaled_ok k scale ltac:(cbn; lia) Hsc) as (z & ->); cbn [Py.bind]
         end.
  destruct (Store_resolve_font_ok env scale) as (f & ->). cbn [Py.bind].
  destruct (textbbox env (0, 0) "$" f) as [[[b0 b1] b2] b3].
  destruct (int_times_ok size (literal 0.58) 0) as (y1 & -> & _);
    [lia | apply literal_small; vm_compute; reflexivity | lia |].
  cbn [Py.bind]. eauto.
Qed.

(** ** C1: the canvas *)




(** ** C2: the gradient *)



Lemma countdown_In n i : In i (countdown n) <-> 1 <= i <= Z.of_nat n.
Proof.
  induction n as [|n IH]; cbn [countdown In].
  - lia.
  - rewrite IH. lia.
Qed.

Lemma channels_exact_160 : channels_exact_upto 160 = true.
Proof. vm_compute. reflexivity. Qed.

Lemma channel_exact_spec lo hi i r ratio z :
  channel_exact lo hi i r = true -> truediv i r = Ok ratio ->
  Gradient.channel lo hi ratio = Ok z -> z = lo + (hi - lo) * i / r.
Proof.
  unfold channel_exact. intros H E1 E2. rewrite E1, E2 in H.
  apply Z.eqb_eq in H. exact H.
Qed.

Lemma circle_at_linear c r i op :
  1 <= i <= r -> r <= 160 -> circle_at c r i op ->
  op = Ellipse (c - i, c - i, c + i, c + i)
         (46 + (76 - 46) * i / r, 125 + (175 - 125) * i / r, 50 + (80 - 50) * i / r, 255).
Proof.
  intros Hi Hr (ratio & zr & zg & zb & E & Er & Eg & Eb & ->).
  pose proof channels_exact_160 as H. unfold channels_exact_upto in H.
  rewrite forallb_forall in H.
  specialize (H r). rewrite forallb_forall in H.
  assert (Hin : In r (map Z.of_nat (seq 1 160))).
  { apply in_map_iff. exists (Z.to_nat r). split; [lia|]. apply in_seq. lia. }
  specialize (H Hin i ltac:(apply countdown_In; lia)).
  apply andb_prop in H. destruct H as [H Hb]. apply andb_prop in H. destruct H as [Hr' Hg].
  rewrite (channel_exact_spec _ _ _ _ _ _ Hr' E Er).
  rewrite (channel_exact_spec _ _ _ _ _ _ Hg E Eg).
  rewrite (channel_exact_spec _ _ _ _ _ _ Hb E Eb).
  reflexivity.
Qed.





(** ** C5: the radius *)


Lemma Store_padding_ok size pr :
  0 <= size < 2 ^ 31 -> small_sf 0 (literal pr) ->
  exists p, Store.padding size pr = Ok p /\ Z.abs p < 2 ^ 33.
Proof.
  intros Hs Hpr. unfold Store.padding.
  apply (int_times_bound size (literal pr) 31 0 33); try lia; assumption.
Qed.



(** ** C4: the glyph *)





(** ** C7: the wide tile and the splash screen *)

Lemma badge_shape_size env size radius img :
  badge_shape env size radius img -> PIL.size img = (size, size).
Proof.
  intros (circles & body & corner & flap & fw & f & r1 & r2 & rw & -> & _). reflexivity.
Qed.

Lemma paste_composite w h side x y icon :
  PIL.size icon = (side, side) ->
  composite w h side x y icon (draw (Image RGBA w h (0, 0, 0, 0) []) (Paste icon (x, y) icon)).
Proof.
  intros Hs. unfold composite. cbn [draw app im_mode PIL.size width height background ops].
  repeat split; try assumption.
  intros R px py Hout. cbn [Raster.pixel fst snd].
  injection Hs as Hw Hh. rewrite Hw, Hh, Hout. reflexivity.
Qed.

(** C7: the wide tile is 310 by 150 with the badge rendered at
    int(150 * 0.7) = 105 pixels and padding ratio 0.05, pasted with itself as
    the mask at x = int(310 * 0.15) = 46 and y = (150 - 105) // 2 = 22 (22
    rows above, 23 below); the splash screen is 620 by 300 with the badge
    rendered at min(620, 300) // 2 = 150 pixels and padding ratio 0.05, pasted
    at (235, 75), the same margin on both sides of each axis; outside the
    pasted square every pixel stays fully transparent. *)
Theorem C7_composites (env : environment) :
  (exists wide icon,
     Store.create_wide_tile env 310 150 = Ok wide /\
     Store.int_times 150 0.7 = Ok 105 /\
     Store.int_times 310 0.15 = Ok 46 /\
     Store.create_budget_icon env 105 0.05 = Ok icon /\
     composite 310 150 105 46 22 icon wide /\
     22 = (150 - 105) / 2 /\ 150 - (22 + 105) = 23) /\
  (exists splash icon,
     Store.create_splash_screen env 620 300 = Ok splash /\
     Store.create_budget_icon env 150 0.05 = Ok icon /\
     150 = Z.min 620 300 / 2 /\
     composite 620 300 150 235 75 icon splash /\
     235 + 150 + 235 = 620 /\ 75 + 150 + 75 = 300).
Proof.
  assert (Hpr : small_sf 0 (literal 0.05)).
  { apply literal_small. vm_compute. reflexivity. }
  assert (E7 : Store.int_times 150 0.7 = Ok 105) by (vm_compute; reflexivity).
  assert (E15 : Store.int_times 310 0.15 = Ok 46) by (vm_compute; reflexivity).
  split.
  - destruct (Store_create_ok env 105 0.05 ltac:(lia) Hpr) as (icon & Ei).
    destruct (Store_create_inv _ _ _ _ Ei) as (p & _ & Hshape).
    eexists. exists icon.
    split.
    { unfold Store.create_wide_tile. rewrite new_ok by lia. cbn [Py.bind].
      rewrite E7. cbn [Py.bind]. rewrite Ei. cbn [Py.bind].
      rewrite E15. cbn [Py.bind]. reflexivity. }
    split; [exact E7|]. split; [exact E15|]. split; [exact Ei|]. split.
    + change ((150 - 105) / 2) with 22.
      apply paste_composite. eapply badge_shape_size, Hshape.
    + split; reflexivity.
  - destruct (Store_create_ok env 150 0.05 ltac:(lia) Hpr) as (icon & Ei).
    destruct (Store_create_inv _ _ _ _ Ei) as (p & _ & Hshape).
    eexists. exists icon.
    split.
    { unfold Store.create_splash_screen. rewrite new_ok by lia. cbn [Py.bind].
      change (Z.min 620 300 / 2) with 150.
      rewrite Ei. cbn [Py.bind]. reflexivity. }
    split; [exact Ei|]. split; [reflexivity|]. split.
    + change ((620 - 150) / 2) with 235. change ((300 - 150) / 2) with 75.
      apply paste_composite. eapply badge_shape_size, Hshape.
    + split; reflexivity.
Qed.

(** ** C6: the icon container *)

Lemma render_all_inv env c dir todo : forall w acc w' images,
  Icon.render_all env c dir w acc todo = Ok (w', images) ->
  exists new,
    images = acc ++ new /\
    Forall2 (fun size img => Icon.create_budget_icon env size = Ok img) todo new.
Proof.
  induction todo as [|size rest IH]; intros w acc w' images H; cbn [Icon.render_all] in H.
  - injection H as <- <-. exists []. split; [rewrite app_nil_r; reflexivity|constructor].
  - bind_inv H.
    destruct (existsb (Z.eqb size) [32; 256]).
    + bind_inv H. apply IH in H. destruct H as (new & -> & HF).
      exists (a :: new). split; [rewrite <- app_assoc; reflexivity|].
      constructor; assumption.
    + apply IH in H. destruct H as (new & -> & HF).
      exists (a :: new). split; [rewrite <- app_assoc; reflexivity|].
      constructor; assumption.
Qed.

Lemma Icon_create_size env size img :
  Icon.create_budget_icon env size = Ok img ->
  exists calls, img = Image RGBA size size (0, 0, 0, 0) calls.
Proof.
  intros H. apply Icon_create_inv in H.
  destruct H as (circles & body & corner & flap & fw & f & r1 & r2 & rw & -> & _). eauto.
Qed.

Lemma write_lookup w p data w' :
  Os.write w p data = Ok w' -> Os.files w' = <[p := Os.File data]> (Os.files w).
Proof.
  unfold Os.write. destruct p as [|name p']; [discriminate|].
  destruct (Os.is_dir _ _); [|discriminate].
  destruct (_ !! _) as [[|d]|]; try discriminate;
    intros H; inversion H; reflexivity.
Qed.

(** C6, on the code: a run of the icon script renders the badge at the seven
    sizes 16, 24, 32, 48, 64, 128, 256 in this order, each image square; but
    the container is saved from the first image, which is 16 by 16, and
    Pillow's ICO writer ignores every requested size bigger than the image
    being saved: both containers written hold one frame, the 16 by 16 one,
    and not seven. *)
Theorem C6_icon_container (env : environment) (c : Os.codec) (script_dir : Os.path)
    (w w' : Os.world) :
  Icon.main env c script_dir w = Ok w' ->
  exists images first more,
    Forall2 (fun size img => Icon.create_budget_icon env size = Ok img /\
                             PIL.size img = (size, size))
      [16; 24; 32; 48; 64; 128; 256] images /\
    images = first :: more /\
    ico_frames first (map (fun img => (width img, height img)) images) more
      = [Provided first] /\
    Os.files w' !! Os.join (Os.dirname script_dir)
                     ["src"; "BudgetWise.App"; "BudgetWise.ico"]%string
      = Some (Os.File (Os.ico c [Provided first])) /\
    Os.files w' !! Os.join (Os.dirname script_dir)
                     ["src"; "BudgetWise.App"; "Assets"; "BudgetWise.ico"]%string
      = Some (Os.File (Os.ico c [Provided first])).
Proof.
  unfold Icon.main. intros H.
  bind_inv H. bind_inv H. destruct a0 as [w2 images].
  apply render_all_inv in E0. destruct E0 as (new & Himg & HF). cbn [app] in Himg. subst new.
  unfold Icon.sizes in HF.
  repeat match goal with
         | HF : Forall2 _ (_ :: _) _ |- _ =>
             let x := fresh "img" in let l := fresh "l" in
             let H1 := fresh "Hc" in let H2 := fresh "HF" in
             inversion HF as [|? x ? l H1 H2]; subst; clear HF
         | HF : Forall2 _ [] _ |- _ => inversion HF; subst; clear HF
         end.
  repeat match goal with
         | Hc : Icon.create_budget_icon env ?s = Ok ?i |- _ =>
             let calls := fresh "calls" in
             let E := fresh "Es" in
             pose proof (Icon_create_size _ _ _ Hc) as (calls & E);
             rewrite E in *; clear E; revert Hc
         end.
  intros.
  cbn [Icon.save_all_sizes map width height] in H. unfold Os.save_ico in H.
  match type of H with
  | context [ico_frames ?a ?b ?d] =>
      assert (Efr : ico_frames a b d = [Provided a]) by (vm_compute; reflexivity)
  end.
  rewrite Efr in H.
  bind_inv H. bind_inv H. injection H as <-.
  apply write_lookup in E0, E1.
  do 3 eexists. split; [|split; [reflexivity|split; [cbn [map width height]; exact Efr|]]].
  - repeat constructor; assumption.
  - cbn [Os.print Os.files]. rewrite E1. cbn [Os.print Os.files]. rewrite E0.
    split.
    + apply lookup_insert_eq.
    + rewrite lookup_insert_ne.
      * unfold Os.join. rewrite <- ?app_assoc. cbn [app]. apply lookup_insert_eq.
      * unfold Os.join. rewrite <- ?app_assoc. cbn [app].
        intros Heq. apply app_inv_head in Heq. discriminate Heq.
Qed.

Lemma C6_witness :
  exists w',
    Icon.main no_fonts counting_codec repo_scripts empty_world = Ok w' /\
    exists images first more,
      Forall2 (fun size img => Icon.create_budget_icon no_fonts size = Ok img /\
                               PIL.size img = (size, size))
        [16; 24; 32; 48; 64; 128; 256] images /\
      images = first :: more /\
      ico_frames first (map (fun img => (width img, height img)) images) more
        = [Provided first] /\
      Os.files w' !! Os.join (Os.dirname repo_scripts)
                       ["src"; "BudgetWise.App"; "BudgetWise.ico"]%string
        = Some (Os.File (Os.ico counting_codec [Provided first])) /\
      Os.files w' !! Os.join (Os.dirname repo_scripts)
                       ["src"; "BudgetWise.App"; "Assets"; "BudgetWise.ico"]%string
        = Some (Os.File (Os.ico counting_codec [Provided first])).
Proof.
  destruct (Icon.main no_fonts counting_codec repo_scripts empty_world) as [w'|e] eqn:E.
  - exists w'. split; [reflexivity|].
    exact (C6_icon_container no_fonts counting_codec repo_scripts empty_world w' E).
  - exfalso. vm_compute in E. discriminate E.
Defined.

(** ** C10: the smallest size *)

(** Run the statements at the head of a sequence for as long as they do not
    depend on the environment. *)
Ltac run_closed env :=
  repeat
    match goal with
    | |- Py.bind ?c _ = _ =>
        lazymatch c with
        | context [env] => fail
        | _ =>
            let v := eval vm_compute in c in
            replace c with v by (vm_compute; reflexivity);
            cbn [Py.bind]
        end
    end.

(** C10: at size 16 neither script raises, whatever fonts the machine has:
    the flap's width int-divides to 0 and is clamped to 2, the rows' width to
    1, and every call has arguments Pillow accepts. *)
Theorem C10_size_16 (env : environment) :
  (exists img f,
     Icon.create_budget_icon env 16 = Ok img /\
     16 / 40 = 0 /\ 16 / 50 = 0 /\
     ops img =
       [ Ellipse (1, 1, 15, 15) (76, 175, 80, 255);
         Ellipse (2, 2, 14, 14) (71, 167, 75, 255);
         Ellipse (3, 3, 13, 13) (67, 160, 71, 255);
         Ellipse (4, 4, 12, 12) (63, 153, 67, 255);
         Ellipse (5, 5, 11, 11) (58, 146, 62, 255);
         Ellipse (6, 6, 10, 10) (54, 139, 58, 255);
         Ellipse (7, 7, 9, 9) (50, 132, 54, 255);
         RoundedRectangle (3, 4, 13, 14) 0 (255, 255, 255, 245);
         Line [(3, 5); (8, 7); (13, 5)] (76, 175, 80, 255) 2;
         Text (glyph_position env 16 f) "$" (46, 125, 50, 255) f;
         Line [(4, 9); (6, 9)] (129, 199, 132, 255) 1;
         Line [(10, 9); (12, 9)] (129, 199, 132, 255) 1 ] /\
     forallb valid_call (ops img) = true) /\
  (exists img f,
     Store.create_budget_icon env 16 0.1 = Ok img /\
     (let! scale := truediv 14 256 in Store.scaled 6 scale) = Ok 0 /\
     (let! scale := truediv 14 256 in Store.scaled 4 scale) = Ok 0 /\
     ops img =
       [ Ellipse (1, 1, 15, 15) (76, 175, 80, 255);
         Ellipse (2, 2, 14, 14) (71, 167, 75, 255);
         Ellipse (3, 3, 13, 13) (67, 160, 71, 255);
         Ellipse (4, 4, 12, 12) (63, 153, 67, 255);
         Ellipse (5, 5, 11, 11) (58, 146, 62, 255);
         Ellipse (6, 6, 10, 10) (54, 139, 58, 255);
         Ellipse (7, 7, 9, 9) (50, 132, 54, 255);
         RoundedRectangle (3, 4, 13, 13) 0 (255, 255, 255, 245);
         Line [(3, 4); (8, 8); (13, 4)] (76, 175, 80, 255) 2;
         Text (glyph_position env 16 f) "$" (46, 125, 50, 255) f;
         Line [(4, 9); (7, 9)] (129, 199, 132, 255) 1;
         Line [(9, 9); (12, 9)] (129, 199, 132, 255) 1 ] /\
     forallb valid_call (ops img) = true).
Proof.
  split.
  - destruct (Icon_resolve_font_ok env 16) as (f & Ef).
    destruct (textbbox env (0, 0) "$" f) as [[[b0 b1] b2] b3] eqn:Eb.
    eexists. exists f. split.
    { unfold Icon.create_budget_icon. run_closed env.
      rewrite Ef. cbn [Py.bind]. rewrite Eb.
      run_closed env. reflexivity. }
    unfold glyph_position. rewrite Eb.
    split; [reflexivity|]. split; [reflexivity|]. split; reflexivity.
  - destruct (Store_resolve_font_ok env (S754_finite false 7881299347898368 (-57)))
      as (f & Ef).
    destruct (textbbox env (0, 0) "$" f) as [[[b0 b1] b2] b3] eqn:Eb.
    eexists. exists f. split.
    { unfold Store.create_budget_icon. run_closed env.
      rewrite Ef. cbn [Py.bind]. rewrite Eb.
      run_closed env. reflexivity. }
    unfold glyph_position. rewrite Eb.
    split; [vm_compute; reflexivity|]. split; [vm_compute; reflexivity|].
    split; reflexivity.
Qed.

(** ** Files: what a run leaves behind *)

Lemma write_inv w p data w' :
  Os.write w p data = Ok w' ->
  p <> [] /\ Os.is_dir (Os.files w) (Os.dirname p) = true /\
  Os.files w !! p <> Some Os.Dir /\
  w' = {| Os.files := <[p := Os.File data]> (Os.files w); Os.stdout := Os.stdout w |}.
Proof.
  unfold Os.write. destruct p as [|a p]; [discriminate|].
  destruct (Os.is_dir _ _); [|discriminate].
  destruct (_ !! _) as [[|d]|] eqn:E; try discriminate;
    intros H; inversion H; repeat split; intros ?; discriminate.
Qed.

Lemma write_ok w p data :
  p <> [] -> Os.is_dir (Os.files w) (Os.dirname p) = true ->
  Os.files w !! p <> Some Os.Dir ->
  Os.write w p data
  = Ok {| Os.files := <[p := Os.File data]> (Os.files w); Os.stdout := Os.stdout w |}.
Proof.
  intros Hp Hd Hn. unfold Os.write. destruct p as [|a p]; [exfalso; apply Hp; reflexivity|].
  rewrite Hd. destruct (_ !! _) as [[|d]|] eqn:E;
    [exfalso; apply Hn; reflexivity|reflexivity|reflexivity].
Qed.


Lemma is_dir_cong fs fs' p :
  (forall q, fs' !! q = Some Os.Dir <-> fs !! q = Some Os.Dir) ->
  Os.is_dir fs' p = Os.is_dir fs p.
Proof.
  intros H. unfold Os.is_dir. destruct p as [|a p]; [reflexivity|].
  generalize (H (a :: p)). clear H. unfold Os.path in *.
  destruct (fs' !! (a :: p)) as [[|d']|], (fs !! (a :: p)) as [[|d]|]; try reflexivity;
    intros [H1 H2]; exfalso;
    first [ specialize (H1 eq_refl); discriminate H1
          | specialize (H2 eq_refl); discriminate H2 ].
Qed.

(** A write leaves the directories as they are. *)
Lemma write_dirs w p data w' :
  Os.write w p data = Ok w' ->
  forall q, Os.files w' !! q = Some Os.Dir <-> Os.files w !! q = Some Os.Dir.
Proof.
  intros H q. apply write_inv in H. destruct H as (_ & _ & Hn & ->). cbn [Os.files].
  destruct (decide (p = q)) as [->|Hne].
  - rewrite lookup_insert_eq. split; [discriminate|]. intros; contradiction.
  - rewrite lookup_insert_ne by assumption. reflexivity.
Qed.

Lemma save_each_dirs l : forall w w',
  save_each w l = Ok w' ->
  forall q, Os.files w' !! q = Some Os.Dir <-> Os.files w !! q = Some Os.Dir.
Proof.
  induction l as [|[p data] l IH]; intros w w' H q; cbn [save_each] in H.
  - injection H as <-. reflexivity.
  - bind_inv H. apply IH with (q := q) in H. cbn [Os.print Os.files] in H.
    rewrite H. eapply write_dirs; eassumption.
Qed.

Lemma save_each_inv l : forall w w',
  save_each w l = Ok w' ->
  (forall q, Os.files w' !! q = written l q (Os.files w !! q)) /\
  Os.stdout w' = Os.stdout w ++ announced l.
Proof.
  induction l as [|[p data] l IH]; intros w w' H; cbn [save_each] in H.
  - injection H as <-. cbn. rewrite app_nil_r. split; reflexivity.
  - bind_inv H. apply IH in H. destruct H as [Hf Hs].
    apply write_inv in E. destruct E as (_ & _ & _ & ->).
    cbn [Os.print Os.files Os.stdout] in Hf, Hs. split.
    + intros q. rewrite Hf. cbn [written].
      destruct (decide (p = q)) as [->|Hne].
      * rewrite lookup_insert_eq. reflexivity.
      * rewrite lookup_insert_ne by assumption. reflexivity.
    + rewrite Hs. cbn [announced map fst]. rewrite <- app_assoc. reflexivity.
Qed.

(** Whether the files of [l] can be saved depends on the directories only. *)
Lemma save_each_ok l : forall w,
  Forall (fun pd => fst pd <> [] /\ Os.is_dir (Os.files w) (Os.dirname (fst pd)) = true /\
                    Os.files w !! fst pd <> Some Os.Dir) l ->
  exists w', save_each w l = Ok w'.
Proof.
  induction l as [|[p data] l IH]; intros w HF; cbn [save_each].
  - eauto.
  - inversion HF as [|? ? (Hp & Hd & Hn) HF']; subst. cbn [fst] in *.
    rewrite (write_ok w p data Hp Hd Hn). cbn [Py.bind].
    apply IH. cbn [Os.print Os.files].
    assert (Hdirs : forall q, <[p := Os.File data]> (Os.files w) !! q = Some Os.Dir
                              <-> Os.files w !! q = Some Os.Dir).
    { intros q. destruct (decide (p = q)) as [->|Hne].
      - rewrite lookup_insert_eq. split; [discriminate|]. intros; contradiction.
      - rewrite lookup_insert_ne by assumption. reflexivity. }
    eapply Forall_impl; [exact HF'|]. cbn beta. intros [p' d'] (Hp' & Hd' & Hn').
    cbn [fst] in *. split; [assumption|]. split.
    + rewrite (is_dir_cong (Os.files w)); assumption.
    + rewrite Hdirs. assumption.
Qed.

Lemma save_each_needs l : forall w w',
  save_each w l = Ok w' ->
  Forall (fun pd => fst pd <> [] /\ Os.is_dir (Os.files w) (Os.dirname (fst pd)) = true /\
                    Os.files w !! fst pd <> Some Os.Dir) l.
Proof.
  induction l as [|[p data] l IH]; intros w w' H; cbn [save_each] in H.
  - constructor.
  - bind_inv H. pose proof (write_dirs _ _ _ _ E) as Hdirs.
    apply IH in H. cbn [Os.print Os.files] in H.
    apply write_inv in E. destruct E as (Hp & Hd & Hn & ->). cbn [Os.files] in *.
    constructor; [cbn [fst]; auto|].
    eapply Forall_impl; [exact H|]. cbn beta. intros [p' d'] (Hp' & Hd' & Hn').
    cbn [fst] in *. split; [assumption|]. split.
    + rewrite <- (is_dir_cong (Os.files w) _ _ Hdirs). assumption.
    + rewrite <- Hdirs. assumption.
Qed.


Lemma written_twice l : forall q x, written l q (written l q x) = written l q x.
Proof.
  induction l as [|[p data] l IH]; intros q x; cbn [written].
  - reflexivity.
  - destruct (decide (p = q)); [reflexivity|apply IH].
Qed.

Lemma written_other l q : forall x, ~ In q (map fst l) -> written l q x = x.
Proof.
  induction l as [|[p data] l IH]; intros x H; cbn [written].
  - reflexivity.
  - cbn [map fst In] in H. destruct (decide (p = q)) as [->|Hne]; [tauto|].
    apply IH. tauto.
Qed.

(** *** Directories *)

Lemma prefixes_longer names : forall base q,
  In q (prefixes base names) -> (length base < length q)%nat.
Proof.
  induction names as [|n names IH]; intros base q H; cbn [prefixes In] in H.
  - contradiction.
  - destruct H as [<-|H].
    + rewrite length_app. cbn. lia.
    + apply IH in H. rewrite length_app in H. cbn in H. lia.
Qed.

Lemma makedirs_below_inv names : forall fs base fs',
  Os.makedirs_below fs base names = Ok fs' ->
  (forall p data, In p (prefixes base names) -> fs !! p <> Some (Os.File data)) /\
  (forall q, fs' !! q = if decide (In q (prefixes base names)) then Some Os.Dir else fs !! q).
Proof.
  induction names as [|n names IH]; intros fs base fs' H; cbn [Os.makedirs_below] in H.
  - injection H as <-. split; [intros ? ? []|]. intros q. cbn [prefixes].
    destruct (decide (In q [])) as [[]|]; reflexivity.
  - assert (Hn : forall d, fs !! (base ++ [n]) <> Some (Os.File d))
      by (intros d Hd; rewrite Hd in H; discriminate H).
    assert (H' : Os.makedirs_below (<[base ++ [n] := Os.Dir]> fs) (base ++ [n]) names = Ok fs')
      by (destruct (fs !! (base ++ [n])) as [[|d]|]; [exact H|discriminate H|exact H]).
    clear H. apply IH in H'. destruct H' as [Hfree Hlook]. split.
    + intros p data [<-|Hin]; [apply Hn|].
      specialize (Hfree p data Hin).
      rewrite lookup_insert_ne in Hfree; [exact Hfree|].
      intros <-. apply prefixes_longer in Hin. lia.
    + intros q. rewrite Hlook. cbn [prefixes].
      destruct (decide (In q (prefixes (base ++ [n]) names))) as [Hin|Hnin].
      * destruct (decide _) as [_|Hc]; [reflexivity|]. exfalso. apply Hc. right. exact Hin.
      * destruct (decide (base ++ [n] = q)) as [Heq|Hne].
        -- rewrite Heq, lookup_insert_eq.
           destruct (decide _) as [_|Hc]; [reflexivity|].
           exfalso. apply Hc. left. reflexivity.
        -- rewrite lookup_insert_ne by assumption.
           destruct (decide _) as [[Hc|Hc]|_]; [contradiction|contradiction|reflexivity].
Qed.

Lemma makedirs_below_ok names : forall fs base,
  (forall p data, In p (prefixes base names) -> fs !! p <> Some (Os.File data)) ->
  exists fs', Os.makedirs_below fs base names = Ok fs'.
Proof.
  induction names as [|n names IH]; intros fs base H; cbn [Os.makedirs_below].
  - eauto.
  - assert (Hrest : exists fs', Os.makedirs_below (<[base ++ [n] := Os.Dir]> fs)
                                  (base ++ [n]) names = Ok fs').
    { apply IH. intros p data Hin.
      rewrite lookup_insert_ne.
      - apply H. right. exact Hin.
      - intros <-. apply prefixes_longer in Hin. lia. }
    destruct (fs !! (base ++ [n])) as [[|d]|] eqn:E; try exact Hrest.
    exfalso. eapply H; [left; reflexivity|exact E].
Qed.

Lemma makedirs_below_blocked names : forall fs base p data,
  In p (prefixes base names) -> fs !! p = Some (Os.File data) ->
  Os.makedirs_below fs base names = Raise OSError.
Proof.
  induction names as [|n names IH]; intros fs base p data Hin Hp; cbn [prefixes In] in Hin.
  - contradiction.
  - cbn [Os.makedirs_below]. destruct Hin as [<-|Hin].
    + unfold Os.path in *. rewrite Hp. reflexivity.
    + assert (Hrest : Os.makedirs_below (<[base ++ [n] := Os.Dir]> fs) (base ++ [n]) names
                      = Raise OSError).
      { apply (IH _ _ p data Hin). rewrite lookup_insert_ne; [exact Hp|].
        intros <-. apply prefixes_longer in Hin. lia. }
      destruct (fs !! (base ++ [n])) as [[|d]|]; auto.
Qed.


(** Directories that are there already are walked through. *)
Lemma makedirs_below_again names : forall fs base,
  (forall p, In p (prefixes base names) -> fs !! p = Some Os.Dir) ->
  Os.makedirs_below fs base names = Ok fs.
Proof.
  induction names as [|n names IH]; intros fs base H; cbn [Os.makedirs_below].
  - reflexivity.
  - unfold Os.path in *. rewrite (H (base ++ [n])) by (left; reflexivity).
    rewrite insert_id by (apply H; left; reflexivity).
    apply IH. intros p Hin. apply H. right. exact Hin.
Qed.

Lemma makedirs_inv w p w' :
  Os.makedirs w p = Ok w' ->
  (forall q data, In q (prefixes [] p) -> Os.files w !! q <> Some (Os.File data)) /\
  (forall q, Os.files w' !! q
             = if decide (In q (prefixes [] p)) then Some Os.Dir else Os.files w !! q) /\
  Os.stdout w' = Os.stdout w.
Proof.
  unfold Os.makedirs. intros H. bind_inv H. injection H as <-.
  apply makedirs_below_inv in E. destruct E as [H1 H2]. cbn [Os.files Os.stdout]. auto.
Qed.

Lemma prefixes_last names : forall base,
  names <> [] -> In (base ++ names) (prefixes base names).
Proof.
  induction names as [|n names IH]; intros base H; [congruence|].
  cbn [prefixes]. destruct names as [|n' names].
  - left. reflexivity.
  - right. replace (base ++ n :: n' :: names) with ((base ++ [n]) ++ n' :: names)
      by (rewrite <- app_assoc; reflexivity).
    apply IH. discriminate.
Qed.

Lemma prefixes_app names more : forall base q,
  In q (prefixes base names) -> In q (prefixes base (names ++ more)).
Proof.
  induction names as [|n names IH]; intros base q H; cbn [prefixes app In] in *.
  - contradiction.
  - destruct H as [H|H]; [left; exact H|right; apply IH; exact H].
Qed.

(** *** A run as directories and files *)

Lemma prefixes_length names : forall base q,
  In q (prefixes base names) ->
  (length q <= length base + length names)%nat /\
  (length q = length base + length names -> q = base ++ names)%nat.
Proof.
  induction names as [|n names IH]; intros base q H; cbn [prefixes In] in H; [contradiction|].
  destruct H as [<-|H].
  - rewrite length_app. cbn [length]. split; [lia|]. intros E.
    destruct names; [reflexivity|cbn [length] in E; lia].
  - apply IH in H. rewrite length_app in H. cbn [length] in *.
    rewrite <- app_assoc in H. cbn [app] in H. destruct H as [H1 H2].
    split; [lia|]. intros E. apply H2. lia.
Qed.

Lemma in_tree_facts d p :
  in_tree d p ->
  p <> [] /\ In (Os.dirname p) (prefixes [] (assets_dir d)) /\
  ~ In p (prefixes [] (assets_dir d)).
Proof.
  unfold in_tree, assets_dir, Os.join, Os.dirname.
  set (root := removelast d).
  assert (Hlen : forall q, In q (prefixes [] (root ++ ["src"; "BudgetWise.App"; "Assets"]%string)) ->
                           (length q <= length root + 3)%nat /\
                           (length q = length root + 3 ->
                            q = root ++ ["src"; "BudgetWise.App"; "Assets"]%string)%nat).
  { intros q H. apply prefixes_length in H. rewrite length_app in H. cbn [length app] in H.
    exact H. }
  intros [[name ->]|[name [Hname ->]]].
  - split; [destruct (root ++ _); discriminate|]. split.
    + rewrite removelast_last.
      apply (prefixes_last (root ++ ["src"; "BudgetWise.App"; "Assets"]%string) []).
      destruct root; discriminate.
    + intros H. apply Hlen in H. rewrite !length_app in H. cbn [length] in H. lia.
  - split; [destruct root; discriminate|]. split.
    + replace (removelast (root ++ ["src"; "BudgetWise.App"; name]%string))
        with (root ++ ["src"; "BudgetWise.App"]%string).
      2:{ replace (root ++ ["src"; "BudgetWise.App"; name]%string)
            with ((root ++ ["src"; "BudgetWise.App"]%string) ++ [name])
            by (rewrite <- app_assoc; reflexivity).
          rewrite removelast_last. reflexivity. }
      replace (root ++ ["src"; "BudgetWise.App"; "Assets"]%string)
        with ((root ++ ["src"; "BudgetWise.App"]%string) ++ ["Assets"%string])
        by (rewrite <- app_assoc; reflexivity).
      apply prefixes_app.
      apply (prefixes_last (root ++ ["src"; "BudgetWise.App"]%string) []).
      destruct root; discriminate.
    + intros H. apply Hlen in H. destruct H as [_ H].
      rewrite !length_app in H. cbn [length] in H. specialize (H eq_refl).
      apply app_inv_head in H. congruence.
Qed.

Lemma run_ok d l w :
  Forall (in_tree d) (map fst l) ->
  writable d (map fst l) w ->
  exists w', run d l w = Ok w'.
Proof.
  intros Htree [Hfree Htargets]. unfold run, Os.makedirs.
  destruct (makedirs_below_ok (assets_dir d) (Os.files w) [] Hfree) as [fs E].
  rewrite E. cbn [Py.bind]. apply makedirs_below_inv in E. destruct E as [_ Hlook].
  apply save_each_ok. cbn [Os.files].
  rewrite List.Forall_forall. intros [p data] Hin. cbn [fst].
  assert (Hp : In p (map fst l)) by (apply in_map_iff; exists (p, data); auto).
  rewrite List.Forall_forall in Htree.
  destruct (in_tree_facts d p (Htree p Hp)) as (Hne & Hdir & Hnot).
  split; [exact Hne|]. split.
  - unfold Os.is_dir. destruct (Os.dirname p) as [|a q] eqn:Eq; [reflexivity|].
    rewrite Hlook. destruct (decide _) as [_|Hc]; [reflexivity|contradiction].
  - rewrite Hlook. destruct (decide _) as [Hc|_]; [contradiction|].
    apply Htargets. exact Hp.
Qed.

Lemma run_needs d l w w' :
  Forall (in_tree d) (map fst l) ->
  run d l w = Ok w' -> writable d (map fst l) w.
Proof.
  intros Htree H. unfold run in H. bind_inv H.
  apply makedirs_inv in E. destruct E as (Hfree & Hlook & _).
  split; [exact Hfree|].
  intros p Hp. apply save_each_needs in H. rewrite List.Forall_forall in H, Htree.
  apply in_map_iff in Hp. destruct Hp as ([p' data] & <- & Hin). cbn [fst].
  destruct (H _ Hin) as (_ & _ & Hn). cbn [fst] in Hn.
  assert (Hp' : In p' (map fst l)) by (apply in_map_iff; exists (p', data); auto).
  destruct (in_tree_facts d p' (Htree p' Hp')) as (_ & _ & Hnot).
  rewrite Hlook in Hn. destruct (decide _) as [Hc|_]; [contradiction|exact Hn].
Qed.


Lemma run_inv d l w w' :
  run d l w = Ok w' ->
  (forall q, Os.files w' !! q
             = written l q (if decide (In q (prefixes [] (assets_dir d)))
                            then Some Os.Dir else Os.files w !! q)) /\
  Os.stdout w' = Os.stdout w ++ announced l.
Proof.
  unfold run. intros H. bind_inv H.
  apply makedirs_inv in E. destruct E as (_ & Hlook & Hout).
  apply save_each_inv in H. destruct H as [Hf Hs]. split.
  - intros q. rewrite Hf, Hlook. reflexivity.
  - rewrite Hs, Hout. reflexivity.
Qed.

(** A second run over the files of a first one: every file is written
    again with the same content. *)
Lemma run_again d l w w1 v :
  run d l w = Ok w1 -> Os.files v = Os.files w1 ->
  exists w2, run d l v = Ok w2 /\ Os.files w2 = Os.files w1 /\
             Os.stdout w2 = Os.stdout v ++ announced l.
Proof.
  intros H Hv. unfold run in H. bind_inv H. rename a into w0.
  pose proof (save_each_dirs _ _ _ H) as Hdirs.
  pose proof (save_each_needs _ _ _ H) as Hneeds.
  pose proof (makedirs_inv _ _ _ E) as (_ & Hlook0 & _).
  assert (Hagain : Os.makedirs v (assets_dir d) = Ok v).
  { unfold Os.makedirs. rewrite makedirs_below_again.
    - cbn [Py.bind]. destruct v; reflexivity.
    - intros p Hin. rewrite Hv. apply Hdirs. rewrite Hlook0.
      destruct (decide _) as [_|Hc]; [reflexivity|contradiction]. }
  assert (Hsave : exists w2, save_each v l = Ok w2).
  { apply save_each_ok. eapply Forall_impl; [exact Hneeds|]. cbn beta.
    intros [p data] (Hp & Hd & Hn). cbn [fst] in *. rewrite Hv.
    split; [assumption|]. split.
    - rewrite (is_dir_cong (Os.files w0)); assumption.
    - rewrite Hdirs. assumption. }
  destruct Hsave as [w2 Hsave]. exists w2. unfold run. rewrite Hagain. cbn [Py.bind].
  split; [exact Hsave|].
  apply save_each_inv in Hsave. destruct Hsave as [Hf2 Hs2].
  apply save_each_inv in H. destruct H as [Hf1 _].
  split; [|exact Hs2].
  apply map_eq. intros q. rewrite Hf2, Hv, Hf1. apply written_twice.
Qed.

(** *** The icon script as a run *)

Lemma Icon_main_run env c :
  exists images,
    Forall2 (fun size img => Icon.create_budget_icon env size = Ok img) Icon.sizes images /\
    forall d w, Icon.main env c d w = run d (icon_files c d images) w.
Proof.
  destruct (Icon_create_ok env 16 ltac:(lia)) as [i16 E16].
  destruct (Icon_create_ok env 24 ltac:(lia)) as [i24 E24].
  destruct (Icon_create_ok env 32 ltac:(lia)) as [i32 E32].
  destruct (Icon_create_ok env 48 ltac:(lia)) as [i48 E48].
  destruct (Icon_create_ok env 64 ltac:(lia)) as [i64 E64].
  destruct (Icon_create_ok env 128 ltac:(lia)) as [i128 E128].
  destruct (Icon_create_ok env 256 ltac:(lia)) as [i256 E256].
  exists [i16; i24; i32; i48; i64; i128; i256]. split.
  { unfold Icon.sizes. repeat constructor; assumption. }
  intros d w. unfold Icon.main, run. fold (assets_dir d).
  destruct (Os.makedirs w (assets_dir d)) as [w0|e]; cbn [Py.bind]; [|reflexivity].
  unfold Icon.sizes. cbn [Icon.render_all].
  rewrite E16, E24, E32, E48, E64, E128, E256. cbn [Py.bind app].
  change (existsb (Z.eqb 16) [32; 256]) with false.
  change (existsb (Z.eqb 24) [32; 256]) with false.
  change (existsb (Z.eqb 32) [32; 256]) with true.
  change (existsb (Z.eqb 48) [32; 256]) with false.
  change (existsb (Z.eqb 64) [32; 256]) with false.
  change (existsb (Z.eqb 128) [32; 256]) with false.
  change (existsb (Z.eqb 256) [32; 256]) with true.
  cbv iota.
  replace (pretty 32) with "32"%string by (vm_compute; reflexivity).
  replace (pretty 256) with "256"%string by (vm_compute; reflexivity).
  unfold icon_files, Os.save_png, Icon.save_all_sizes, Os.save_ico.
  cbn [save_each nth tl fst snd].
  change ("BudgetWise_" ++ "32" ++ ".png")%string with "BudgetWise_32.png"%string.
  change ("BudgetWise_" ++ "256" ++ ".png")%string with "BudgetWise_256.png"%string.
  destruct (Os.write w0 _ _) as [w1|e]; cbn [Py.bind]; [|reflexivity].
  destruct (Os.write _ _ _) as [w2|e]; cbn [Py.bind]; [|reflexivity].
  destruct (Os.write _ _ _) as [w3|e]; cbn [Py.bind]; [|reflexivity].
  destruct (Os.write _ _ _) as [w4|e]; cbn [Py.bind]; reflexivity.
Qed.

(** *** The store script as a run *)

Lemma wide_tile_310_ok env : exists img, Store.create_wide_tile env 310 150 = Ok img.
Proof.
  assert (Hpr : small_sf 0 (literal 0.05)) by (apply literal_small; vm_compute; reflexivity).
  assert (E7 : Store.int_times 150 0.7 = Ok 105) by (vm_compute; reflexivity).
  assert (E15 : Store.int_times 310 0.15 = Ok 46) by (vm_compute; reflexivity).
  destruct (Store_create_ok env 105 0.05 ltac:(lia) Hpr) as (icon & Ei).
  unfold Store.create_wide_tile. rewrite new_ok by lia. cbn [Py.bind].
  rewrite E7. cbn [Py.bind]. rewrite Ei. cbn [Py.bind]. rewrite E15. cbn [Py.bind]. eauto.
Qed.

Lemma splash_620_ok env : exists img, Store.create_splash_screen env 620 300 = Ok img.
Proof.
  assert (Hpr : small_sf 0 (literal 0.05)) by (apply literal_small; vm_compute; reflexivity).
  destruct (Store_create_ok env 150 0.05 ltac:(lia) Hpr) as (icon & Ei).
  unfold Store.create_splash_screen. rewrite new_ok by lia. cbn [Py.bind].
  change (Z.min 620 300 / 2) with 150. rewrite Ei. cbn [Py.bind]. eauto.
Qed.

Lemma Store_main_run env c :
  exists images,
    Forall2 (fun r img => r = Ok img) (store_renderings env) images /\
    forall d w, Store.main env c d w
                = let! w' := run d (store_files c d images) w in
                  Ok (Os.print w' final_line).
Proof.
  assert (H10 : small_sf 0 (literal 0.1)) by (apply literal_small; vm_compute; reflexivity).
  assert (H05 : small_sf 0 (literal 0.05)) by (apply literal_small; vm_compute; reflexivity).
  destruct (Store_create_ok env 44 0.1 ltac:(lia) H10) as [i1 E1].
  destruct (Store_create_ok env 24 0.1 ltac:(lia) H10) as [i2 E2].
  destruct (Store_create_ok env 48 0.1 ltac:(lia) H10) as [i3 E3].
  destruct (Store_create_ok env 256 0.1 ltac:(lia) H10) as [i4 E4].
  destruct (Store_create_ok env 71 0.1 ltac:(lia) H10) as [i5 E5].
  destruct (Store_create_ok env 150 0.1 ltac:(lia) H10) as [i6 E6].
  destruct (Store_create_ok env 310 0.1 ltac:(lia) H10) as [i7 E7].
  destruct (Store_create_ok env 50 0.1 ltac:(lia) H10) as [i8 E8].
  destruct (Store_create_ok env 100 0.1 ltac:(lia) H10) as [i9 E9].
  destruct (wide_tile_310_ok env) as [wide Ew].
  destruct (splash_620_ok env) as [splash Es].
  destruct (Store_create_ok env 24 0.05 ltac:(lia) H05) as [badge Eb].
  exists [i1; i2; i3; i4; i5; i6; i7; i8; i9; wide; splash; badge]. split.
  { unfold store_renderings, Store.square_assets. cbn [map app snd].
    repeat constructor; assumption. }
  intros d w. unfold Store.main, run. fold (assets_dir d).
  destruct (Os.makedirs w (assets_dir d)) as [w0|e]; cbn [Py.bind]; [|reflexivity].
  unfold store_files, store_names, Store.square_assets.
  cbn [Store.render_squares map combine app fst snd save_each].
  rewrite E1, E2, E3, E4, E5, E6, E7, E8, E9, Ew, Es, Eb. cbn [Py.bind].
  unfold Os.save_png.
  repeat (destruct (Os.write _ _ _) as [?w|?e]; cbn [Py.bind]; [|reflexivity]).
  reflexivity.
Qed.

Lemma icon_files_targets c d images : map fst (icon_files c d images) = icon_targets d.
Proof. reflexivity. Qed.

Lemma store_files_targets c d images :
  length images = 12%nat -> map fst (store_files c d images) = store_targets d.
Proof.
  intros H. do 13 (destruct images as [|? images]; try discriminate H). reflexivity.
Qed.

Lemma icon_targets_in_tree d : Forall (in_tree d) (icon_targets d).
Proof.
  unfold icon_targets.
  constructor; [left; eexists; reflexivity|].
  constructor; [left; eexists; reflexivity|].
  constructor; [left; eexists; reflexivity|].
  constructor; [|constructor].
  right. exists "BudgetWise.ico"%string. split; [discriminate|reflexivity].
Qed.

Lemma store_targets_in_tree d : Forall (in_tree d) (store_targets d).
Proof.
  unfold store_targets. apply List.Forall_forall. intros p Hp.
  apply in_map_iff in Hp. destruct Hp as (name & <- & _). left. eexists. reflexivity.
Qed.

Lemma Forall2_length_eq {A B} (P : A -> B -> Prop) l l' :
  List.Forall2 P l l' -> length l = length l'.
Proof. induction 1; cbn [length]; congruence. Qed.

Lemma written_in l : forall p data x,
  List.NoDup (map fst l) -> In (p, data) l -> written l p x = Some (Os.File data).
Proof.
  induction l as [|[p' d'] l IH]; intros p data x Hnd Hin; cbn [In] in Hin; [contradiction|].
  cbn [map fst] in Hnd. apply NoDup_cons_iff in Hnd. destruct Hnd as [Hnot Hnd].
  cbn [written]. destruct Hin as [Heq|Hin].
  - injection Heq as -> ->. destruct (decide (p = p)) as [_|Hc]; [|contradiction].
    apply written_other. exact Hnot.
  - apply IH; assumption.
Qed.

Lemma join_inj (a : Os.path) (s t : list string) : Os.join a s = Os.join a t -> s = t.
Proof. unfold Os.join. apply app_inv_head. Qed.

Lemma store_names_eq :
  store_names
  = [ "Square44x44Logo.png";
      "Square44x44Logo.targetsize-24_altform-unplated.png";
      "Square44x44Logo.targetsize-48_altform-unplated.png";
      "Square44x44Logo.targetsize-256_altform-unplated.png";
      "Square71x71Logo.png"; "Square150x150Logo.png"; "Square310x310Logo.png";
      "StoreLogo.png"; "StoreLogo.scale-200.png";
      "Wide310x150Logo.png"; "SplashScreen.png"; "BadgeLogo.png" ]%string.
Proof. vm_compute. reflexivity. Qed.

Lemma store_names_NoDup : List.NoDup store_names.
Proof.
  rewrite store_names_eq.
  repeat (constructor;
          [cbn [In]; intros H; repeat (destruct H as [H|H]; [discriminate H|]); exact H|]).
  constructor.
Qed.

Lemma root_icon_path d :
  Os.join (Os.dirname d) ["src"; "BudgetWise.App"; "BudgetWise.ico"]%string
  = Os.join (Os.join (Os.dirname d) ["src"; "BudgetWise.App"]%string) ["BudgetWise.ico"%string].
Proof. unfold Os.join. rewrite <- app_assoc. reflexivity. Qed.

Lemma assets_path d name :
  Os.join (assets_dir d) [name]
  = Os.join (Os.dirname d) ["src"; "BudgetWise.App"; "Assets"; name]%string.
Proof. unfold assets_dir, Os.join. rewrite <- app_assoc. reflexivity. Qed.

Lemma store_targets_NoDup d : List.NoDup (store_targets d).
Proof.
  unfold store_targets. rewrite store_names_eq. cbn [map]. rewrite !assets_path.
  repeat (constructor;
          [cbn [In]; intros H; repeat destruct H as [H|H]; try contradiction;
           apply join_inj in H; discriminate H|]).
  constructor.
Qed.

Lemma icon_targets_NoDup d : List.NoDup (icon_targets d).
Proof.
  unfold icon_targets. rewrite !assets_path.
  repeat (constructor;
          [cbn [In]; intros H; repeat destruct H as [H|H]; try contradiction;
           apply join_inj in H; discriminate H|]).
  constructor.
Qed.

(** The two scripts write different files. *)
Lemma targets_disjoint d p : In p (icon_targets d) -> In p (store_targets d) -> False.
Proof.
  unfold icon_targets, store_targets. rewrite store_names_eq.
  cbn [map]. rewrite !assets_path. cbn [In].
  intros H1 H2.
  repeat destruct H1 as [H1|H1]; try contradiction; subst p;
    repeat destruct H2 as [H2|H2]; try contradiction;
    apply join_inj in H2; discriminate H2.
Qed.

Lemma announced_targets l :
  announced l = map (fun p => ("Saved: " ++ Os.show p)%string) (map fst l).
Proof. unfold announced. rewrite map_map. reflexivity. Qed.

(** What a run does to the file system, path by path. *)
Lemma run_lookup d l w w' :
  Forall (in_tree d) (map fst l) -> List.NoDup (map fst l) ->
  run d l w = Ok w' ->
  (forall p data, In (p, data) l -> Os.files w' !! p = Some (Os.File data)) /\
  (forall p, In p (prefixes [] (assets_dir d)) -> Os.files w' !! p = Some Os.Dir) /\
  (forall p, ~ In p (prefixes [] (assets_dir d)) -> ~ In p (map fst l) ->
             Os.files w' !! p = Os.files w !! p) /\
  Os.stdout w' = Os.stdout w ++ map (fun p => ("Saved: " ++ Os.show p)%string) (map fst l).
Proof.
  intros Htree Hnd H. apply run_inv in H. destruct H as [Hf Hs].
  rewrite List.Forall_forall in Htree.
  split; [|split; [|split]].
  - intros p data Hin. rewrite Hf. apply written_in; assumption.
  - intros p Hin. rewrite Hf. destruct (decide _) as [_|Hc]; [|contradiction].
    apply written_other. intros Hp. apply Htree, in_tree_facts in Hp. tauto.
  - intros p Hp Hn. rewrite Hf. destruct (decide _) as [Hc|_]; [contradiction|].
    apply written_other. exact Hn.
  - rewrite Hs, announced_targets. reflexivity.
Qed.

Lemma store_images_length env images :
  List.Forall2 (fun r img => r = Ok img) (store_renderings env) images ->
  length images = 12%nat.
Proof. intros H. apply Forall2_length_eq in H. rewrite <- H. reflexivity. Qed.

(** ** What the runs leave behind *)

(** X1: a run of the icon script that ends well has created the
    directories down to the assets directory, has written the encodings of
    the 32 and the 256 pixel renderings as [BudgetWise_32.png] and
    [BudgetWise_256.png], has left every path other than these directories
    and its four files as it was, and has printed four lines, one per file
    and in the order the files are written. *)
Theorem Icon_main_effects (env : environment) (c : Os.codec) (d : Os.path)
    (w w' : Os.world) :
  Icon.main env c d w = Ok w' ->
  exists i32 i256,
    Icon.create_budget_icon env 32 = Ok i32 /\
    Icon.create_budget_icon env 256 = Ok i256 /\
    Os.files w' !! Os.join (assets_dir d) ["BudgetWise_32.png"%string]
      = Some (Os.File (Os.png c i32)) /\
    Os.files w' !! Os.join (assets_dir d) ["BudgetWise_256.png"%string]
      = Some (Os.File (Os.png c i256)) /\
    (forall p, In p (prefixes [] (assets_dir d)) -> Os.files w' !! p = Some Os.Dir) /\
    (forall p, ~ In p (prefixes [] (assets_dir d)) -> ~ In p (icon_targets d) ->
               Os.files w' !! p = Os.files w !! p) /\
    Os.stdout w'
    = Os.stdout w ++ map (fun p => ("Saved: " ++ Os.show p)%string) (icon_targets d).
Proof.
  intros H. destruct (Icon_main_run env c) as (images & HF & Hrun).
  rewrite Hrun in H.
  apply run_lookup in H;
    [|rewrite icon_files_targets; apply icon_targets_in_tree
     |rewrite icon_files_targets; apply icon_targets_NoDup].
  rewrite icon_files_targets in H. destruct H as (Hfile & Hdir & Hframe & Hout).
  unfold Icon.sizes in HF.
  apply Forall2_cons_inv_l in HF as (i16 & l1 & E16 & HF & ->).
  apply Forall2_cons_inv_l in HF as (i24 & l2 & E24 & HF & ->).
  apply Forall2_cons_inv_l in HF as (i32 & l3 & E32 & HF & ->).
  apply Forall2_cons_inv_l in HF as (i48 & l4 & E48 & HF & ->).
  apply Forall2_cons_inv_l in HF as (i64 & l5 & E64 & HF & ->).
  apply Forall2_cons_inv_l in HF as (i128 & l6 & E128 & HF & ->).
  apply Forall2_cons_inv_l in HF as (i256 & l7 & E256 & HF & ->).
  exists i32, i256. split; [exact E32|]. split; [exact E256|].
  split; [apply Hfile; left; reflexivity|].
  split; [apply Hfile; right; left; reflexivity|].
  auto.
Qed.

Lemma Icon_main_effects_witness :
  exists w',
    Icon.main no_fonts counting_codec repo_scripts empty_world = Ok w' /\
    exists i32 i256,
      Icon.create_budget_icon no_fonts 32 = Ok i32 /\
      Icon.create_budget_icon no_fonts 256 = Ok i256 /\
      Os.files w' !! Os.join (assets_dir repo_scripts) ["BudgetWise_32.png"%string]
        = Some (Os.File (Os.png counting_codec i32)) /\
      Os.files w' !! Os.join (assets_dir repo_scripts) ["BudgetWise_256.png"%string]
        = Some (Os.File (Os.png counting_codec i256)) /\
      (forall p, In p (prefixes [] (assets_dir repo_scripts)) ->
                 Os.files w' !! p = Some Os.Dir) /\
      (forall p, ~ In p (prefixes [] (assets_dir repo_scripts)) ->
                 ~ In p (icon_targets repo_scripts) ->
                 Os.files w' !! p = Os.files empty_world !! p) /\
      Os.stdout w'
      = Os.stdout empty_world
        ++ map (fun p => ("Saved: " ++ Os.show p)%string) (icon_targets repo_scripts).
Proof.
  assert (Hok : match Icon.main no_fonts counting_codec repo_scripts empty_world with
                | Ok _ => true
                | Raise _ => false
                end = true) by (vm_compute; reflexivity).
  destruct (Icon.main no_fonts counting_codec repo_scripts empty_world) as [w'|e] eqn:E;
    [|discriminate Hok].
  exists w'. split; [reflexivity|].
  exact (Icon_main_effects no_fonts counting_codec repo_scripts empty_world w' E).
Defined.

(** X2: a run of the store script that ends well has written twelve PNG
    files into the assets directory, the encodings of the nine squares (in
    catalogue order, padding ratio 0.1), of the wide tile, of the splash
    screen and of the 24 pixel badge (padding ratio 0.05), each under its
    catalogue name; it has created the directories down to the assets
    directory and left every other path as it was; it has printed one line
    per file, in this order, and the closing line last. *)
Theorem Store_main_effects (env : environment) (c : Os.codec) (d : Os.path)
    (w w' : Os.world) :
  Store.main env c d w = Ok w' ->
  exists images,
    List.Forall2 (fun r img => r = Ok img) (store_renderings env) images /\
    (forall name img, In (name, img) (combine store_names images) ->
       Os.files w' !! Os.join (assets_dir d) [name] = Some (Os.File (Os.png c img))) /\
    (forall p, In p (prefixes [] (assets_dir d)) -> Os.files w' !! p = Some Os.Dir) /\
    (forall p, ~ In p (prefixes [] (assets_dir d)) -> ~ In p (store_targets d) ->
               Os.files w' !! p = Os.files w !! p) /\
    Os.stdout w'
    = Os.stdout w ++ map (fun p => ("Saved: " ++ Os.show p)%string) (store_targets d)
      ++ [final_line].
Proof.
  intros H. destruct (Store_main_run env c) as (images & HF & Hrun).
  rewrite Hrun in H. bind_inv H. injection H as <-. rename a into w1.
  pose proof (store_images_length env images HF) as Hlen.
  apply run_lookup in E;
    [|rewrite store_files_targets by exact Hlen; apply store_targets_in_tree
     |rewrite store_files_targets by exact Hlen; apply store_targets_NoDup].
  rewrite store_files_targets in E by exact Hlen.
  destruct E as (Hfile & Hdir & Hframe & Hout).
  exists images. split; [exact HF|]. cbn [Os.print Os.files Os.stdout].
  split; [|split; [exact Hdir|split; [exact Hframe|]]].
  - intros name img Hin. apply Hfile. unfold store_files.
    apply in_map_iff. exists (name, img). split; [reflexivity|exact Hin].
  - rewrite Hout, <- app_assoc. reflexivity.
Qed.

Lemma Store_main_effects_witness :
  exists w',
    Store.main no_fonts counting_codec repo_scripts empty_world = Ok w' /\
    exists images,
      List.Forall2 (fun r img => r = Ok img) (store_renderings no_fonts) images /\
      (forall name img, In (name, img) (combine store_names images) ->
         Os.files w' !! Os.join (assets_dir repo_scripts) [name]
         = Some (Os.File (Os.png counting_codec img))) /\
      (forall p, In p (prefixes [] (assets_dir repo_scripts)) ->
                 Os.files w' !! p = Some Os.Dir) /\
      (forall p, ~ In p (prefixes [] (assets_dir repo_scripts)) ->
                 ~ In p (store_targets repo_scripts) ->
                 Os.files w' !! p = Os.files empty_world !! p) /\
      Os.stdout w'
      = Os.stdout empty_world
        ++ map (fun p => ("Saved: " ++ Os.show p)%string) (store_targets repo_scripts)
        ++ [final_line].
Proof.
  assert (Hok : match Store.main no_fonts counting_codec repo_scripts empty_world with
                | Ok _ => true
                | Raise _ => false
                end = true) by (vm_compute; reflexivity).
  destruct (Store.main no_fonts counting_codec repo_scripts empty_world) as [w'|e] eqn:E;
    [|discriminate Hok].
  exists w'. split; [reflexivity|].
  exact (Store_main_effects no_fonts counting_codec repo_scripts empty_world w' E).
Defined.


(** X4: running a script again over what its first run left behind ends
    well and leaves every file as it is (each file is written again with
    the same content: nothing but the size catalogue, the fonts of the
    machine and the encoders enters a rendering); only the console output
    is repeated. *)
Theorem rerun_keeps_files (env : environment) (c : Os.codec) (d : Os.path)
    (w w1 v v1 : Os.world) :
  Icon.main env c d w = Ok w1 ->
  Store.main env c d v = Ok v1 ->
  (exists w2, Icon.main env c d w1 = Ok w2 /\ Os.files w2 = Os.files w1 /\
              Os.stdout w2
              = Os.stdout w1
                ++ map (fun p => ("Saved: " ++ Os.show p)%string) (icon_targets d)) /\
  (exists v2, Store.main env c d v1 = Ok v2 /\ Os.files v2 = Os.files v1 /\
              Os.stdout v2
              = Os.stdout v1
                ++ map (fun p => ("Saved: " ++ Os.show p)%string) (store_targets d)
                ++ [final_line]).
Proof.
  intros HI HS.
  destruct (Icon_main_run env c) as (imagesI & HFI & HrunI).
  destruct (Store_main_run env c) as (imagesS & HFS & HrunS).
  pose proof (store_images_length env imagesS HFS) as Hlen.
  rewrite HrunI in *. rewrite HrunS in *. split.
  - destruct (run_again d _ w w1 w1 HI eq_refl) as (w2 & E & Hf & Hs).
    exists w2. rewrite announced_targets, icon_files_targets in Hs. auto.
  - bind_inv HS. injection HS as <-. rename a into v0.
    destruct (run_again d _ v v0 (Os.print v0 final_line) E eq_refl) as (v2 & E2 & Hf & Hs).
    rewrite E2. cbn [Py.bind]. eexists. split; [reflexivity|].
    cbn [Os.print Os.files Os.stdout] in *. split; [exact Hf|].
    rewrite Hs, announced_targets, store_files_targets by exact Hlen.
    rewrite <- app_assoc. reflexivity.
Qed.

Lemma rerun_keeps_files_witness :
  exists w1 v1,
    Icon.main no_fonts counting_codec repo_scripts empty_world = Ok w1 /\
    Store.main no_fonts counting_codec repo_scripts empty_world = Ok v1 /\
    (exists w2, Icon.main no_fonts counting_codec repo_scripts w1 = Ok w2 /\
                Os.files w2 = Os.files w1 /\
                Os.stdout w2
                = Os.stdout w1
                  ++ map (fun p => ("Saved: " ++ Os.show p)%string)
                       (icon_targets repo_scripts)) /\
    (exists v2, Store.main no_fonts counting_codec repo_scripts v1 = Ok v2 /\
                Os.files v2 = Os.files v1 /\
                Os.stdout v2
                = Os.stdout v1
                  ++ map (fun p => ("Saved: " ++ Os.show p)%string)
                       (store_targets repo_scripts)
                  ++ [final_line]).
Proof.
  assert (HokI : match Icon.main no_fonts counting_codec repo_scripts empty_world with
                 | Ok _ => true
                 | Raise _ => false
                 end = true) by (vm_compute; reflexivity).
  assert (HokS : match Store.main no_fonts counting_codec repo_scripts empty_world with
                 | Ok _ => true
                 | Raise _ => false
                 end = true) by (vm_compute; reflexivity).
  destruct (Icon.main no_fonts counting_codec repo_scripts empty_world) as [w1|e] eqn:E1;
    [|discriminate HokI].
  destruct (Store.main no_fonts counting_codec repo_scripts empty_world) as [v1|e] eqn:E2;
    [|discriminate HokS].
  exists w1, v1. split; [reflexivity|]. split; [reflexivity|].
  exact (rerun_keeps_files no_fonts counting_codec repo_scripts
           empty_world w1 empty_world v1 E1 E2).
Defined.

(** X5: the two scripts write into the same directory without touching
    each other's files: after the icon script and then the store script, the
    four files of the icon script are as the icon script left them, and the
    other order of the two runs ends well too and leaves the same file
    system. *)
Theorem scripts_commute (env : environment) (c : Os.codec) (d : Os.path)
    (w w1 w2 : Os.world) :
  Icon.main env c d w = Ok w1 ->
  Store.main env c d w1 = Ok w2 ->
  (forall p, In p (icon_targets d) -> Os.files w2 !! p = Os.files w1 !! p) /\
  exists v1 v2,
    Store.main env c d w = Ok v1 /\ Icon.main env c d v1 = Ok v2 /\
    Os.files v2 = Os.files w2.
Proof.
  intros HI HS.
  destruct (Icon_main_run env c) as (imagesI & HFI & HrunI).
  destruct (Store_main_run env c) as (imagesS & HFS & HrunS).
  pose proof (store_images_length env imagesS HFS) as Hlen.
  pose proof (icon_targets_in_tree d) as HtI.
  pose proof (store_targets_in_tree d) as HtS.
  rewrite HrunI in *. rewrite HrunS in *.
  bind_inv HS. injection HS as <-. rename a into w2.
  set (lI := icon_files c d imagesI) in *.
  set (lS := store_files c d imagesS) in *.
  assert (EtI : map fst lI = icon_targets d) by apply icon_files_targets.
  assert (EtS : map fst lS = store_targets d) by (apply store_files_targets; exact Hlen).
  pose proof (run_needs d lI w w1 ltac:(rewrite EtI; exact HtI) HI) as [HfreeI HnotI].
  pose proof (run_needs d lS w1 w2 ltac:(rewrite EtS; exact HtS) E) as [HfreeS HnotS].
  pose proof (run_inv _ _ _ _ HI) as [HfI _].
  pose proof (run_inv _ _ _ _ E) as [HfS _].
  rewrite List.Forall_forall in HtI, HtS.
  assert (HoI : forall q x, ~ In q (icon_targets d) -> written lI q x = x)
    by (intros q x Hq; apply written_other; rewrite EtI; exact Hq).
  assert (HoS : forall q x, ~ In q (store_targets d) -> written lS q x = x)
    by (intros q x Hq; apply written_other; rewrite EtS; exact Hq).
  assert (HnI : forall q, In q (prefixes [] (assets_dir d)) -> ~ In q (icon_targets d))
    by (intros q Hq Hin; apply HtI, in_tree_facts in Hin; tauto).
  assert (HnS : forall q, In q (prefixes [] (assets_dir d)) -> ~ In q (store_targets d))
    by (intros q Hq Hin; apply HtS, in_tree_facts in Hin; tauto).
  cbn [Os.print Os.files].
  split.
  { intros p Hp. rewrite HfS.
    assert (HpS : ~ In p (store_targets d)) by (intros Hc; exact (targets_disjoint d p Hp Hc)).
    rewrite HoS by exact HpS.
    destruct (decide _) as [Hc|_]; [|reflexivity].
    exfalso. exact (HnI p Hc Hp). }
  destruct (run_ok d lS w) as [v1 Ev1].
  { rewrite EtS. apply List.Forall_forall. exact HtS. }
  { split; [exact HfreeI|]. rewrite EtS. intros p Hp. rewrite EtS in HnotS.
    specialize (HnotS p Hp). rewrite HfI in HnotS.
    assert (HpI : ~ In p (icon_targets d)) by (intros Hc; exact (targets_disjoint d p Hc Hp)).
    rewrite HoI in HnotS by exact HpI.
    destruct (decide _) as [Hc|_]; [|exact HnotS].
    exfalso. apply HtS, in_tree_facts in Hp. tauto. }
  pose proof (run_inv _ _ _ _ Ev1) as [Hfv1 _].
  destruct (run_ok d lI (Os.print v1 final_line)) as [v2 Ev2].
  { rewrite EtI. apply List.Forall_forall. exact HtI. }
  { cbn [Os.print]. split; cbn [Os.files].
    - intros p data Hp. rewrite Hfv1. rewrite HoS by (apply HnS; exact Hp).
      destruct (decide _) as [_|Hc]; [discriminate|contradiction].
    - rewrite EtI. intros p Hp. rewrite EtI in HnotI. rewrite Hfv1.
      assert (HpS : ~ In p (store_targets d)) by (intros Hc; exact (targets_disjoint d p Hp Hc)).
      rewrite HoS by exact HpS.
      destruct (decide _) as [Hc|_]; [exfalso; exact (HnI p Hc Hp)|].
      apply HnotI. exact Hp. }
  exists (Os.print v1 final_line), v2.
  rewrite Ev1. cbn [Py.bind]. split; [reflexivity|]. split; [rewrite HrunI; exact Ev2|].
  pose proof (run_inv _ _ _ _ Ev2) as [Hfv2 _]. cbn [Os.print Os.files] in Hfv2.
  apply map_eq. intros q. rewrite Hfv2, HfS, Hfv1, HfI.
  destruct (decide (In q (prefixes [] (assets_dir d)))) as [Hq|Hq].
  - rewrite (HoS q) by (apply HnS; exact Hq). rewrite (HoI q) by (apply HnI; exact Hq).
    reflexivity.
  - destruct (decide (In q (store_targets d))) as [HqS|HqS].
    + assert (HqI : ~ In q (icon_targets d)) by (intros Hc; exact (targets_disjoint d q Hc HqS)).
      rewrite !(HoI q) by exact HqI. reflexivity.
    + rewrite !(HoS q) by exact HqS. reflexivity.
Qed.

Lemma scripts_commute_witness :
  exists w1 w2,
    Icon.main no_fonts counting_codec repo_scripts empty_world = Ok w1 /\
    Store.main no_fonts counting_codec repo_scripts w1 = Ok w2 /\
    (forall p, In p (icon_targets repo_scripts) ->
               Os.files w2 !! p = Os.files w1 !! p) /\
    exists v1 v2,
      Store.main no_fonts counting_codec repo_scripts empty_world = Ok v1 /\
      Icon.main no_fonts counting_codec repo_scripts v1 = Ok v2 /\
      Os.files v2 = Os.files w2.
Proof.
  assert (Hok : match Icon.main no_fonts counting_codec repo_scripts empty_world with
                | Ok w1 =>
                    match Store.main no_fonts counting_codec repo_scripts w1 with
                    | Ok _ => true
                    | Raise _ => false
                    end
                | Raise _ => false
                end = true) by (vm_compute; reflexivity).
  destruct (Icon.main no_fonts counting_codec repo_scripts empty_world) as [w1|e] eqn:E1;
    [|discriminate Hok].
  destruct (Store.main no_fonts counting_codec repo_scripts w1) as [w2|e] eqn:E2;
    [|discriminate Hok].
  exists w1, w2. split; [reflexivity|]. split; [exact E2|].
  exact (scripts_commute no_fonts counting_codec repo_scripts empty_world w1 w2 E1 E2).
Defined.

(** ** Binary64 arithmetic: values *)






(** *** Integers as floats *)

Lemma iter_xO_value d : forall m, Z.pos (Pos.iter xO m d) = Z.pos m * 2 ^ Z.pos d.
Proof.
  induction d using Pos.peano_ind; intros m.
  - cbn [Pos.iter]. rewrite Pos2Z.inj_xO. lia.
  - rewrite Pos.iter_succ, Pos2Z.inj_xO, IHd, Pos2Z.inj_succ, Z.pow_succ_r by lia. lia.
Qed.

Lemma shr_1_clean m : 0 < m -> shr_1 (clean (2 * m)) = clean m.
Proof. destruct m as [|p|p]; try lia. intros _. reflexivity. Qed.

Lemma iter_shr_clean n : forall c T,
  0 < c -> Z.pos n <= T ->
  SpecFloat.iter_pos shr_1 n (clean (c * 2 ^ T)) = clean (c * 2 ^ (T - Z.pos n)).
Proof.
  assert (Hstep : forall c T, 0 < c -> 1 <= T ->
                    shr_1 (clean (c * 2 ^ T)) = clean (c * 2 ^ (T - 1))).
  { intros c T Hc HT.
    replace (c * 2 ^ T) with (2 * (c * 2 ^ (T - 1))).
    - apply shr_1_clean. assert (0 < 2 ^ (T - 1)) by (apply Z.pow_pos_nonneg; lia). nia.
    - replace T with (1 + (T - 1)) at 2 by lia. rewrite Z.pow_add_r by lia. lia. }
  induction n as [n IH|n IH|]; intros c T Hc HT; cbn [SpecFloat.iter_pos].
  - rewrite Hstep by lia. rewrite IH by lia. rewrite IH by lia.
    replace (T - 1 - Z.pos n - Z.pos n) with (T - Z.pos n~1) by lia. reflexivity.
  - rewrite IH by lia. rewrite IH by lia.
    replace (T - Z.pos n - Z.pos n) with (T - Z.pos n~0) by lia. reflexivity.
  - apply Hstep; lia.
Qed.

(** Rounding a value that needs no more than 53 bits returns this value. *)
Lemma round_aux_exact s c T E :
  0 < c -> Zdigits2 c <= 53 -> 0 <= T -> -1074 <= E + T -> E + T <= 971 ->
  exists m e,
    binary_round_aux prec emax s (c * 2 ^ T) E loc_Exact = S754_finite s m e /\
    E <= e <= E + T /\ -1074 <= e /\ Z.pos (digits2_pos m) <= 53 /\
    Z.pos m = c * 2 ^ (T - (e - E)).
Proof.
  intros Hc Hd HT Hlo Hhi.
  assert (HpT : 0 < 2 ^ T) by (apply Z.pow_pos_nonneg; lia).
  set (M := c * 2 ^ T).
  assert (HdM : Zdigits2 M = Zdigits2 c + T) by (apply Zdigits2_shift; lia).
  pose (k := Z.max 0 (fexp prec emax (Zdigits2 M + E) - E)).
  assert (Ek0 : k = Z.max 0 (fexp prec emax (Zdigits2 M + E) - E)) by reflexivity.
  clearbody k.
  assert (Hk : 0 <= k <= T) by (unfold fexp, emin, prec, emax in Ek0; lia).
  assert (Hpk : 0 < 2 ^ (T - k)) by (apply Z.pow_pos_nonneg; lia).
  assert (H1 : shr_fexp prec emax M E loc_Exact = (clean (c * 2 ^ (T - k)), E + k)).
  { unfold shr_fexp, shr.
    change (shr_record_of_loc M loc_Exact) with (clean M).
    destruct (fexp prec emax (Zdigits2 M + E) - E) as [|p|p] eqn:Ek.
    - replace k with 0 by lia.
      rewrite Z.sub_0_r, Z.add_0_r. reflexivity.
    - assert (Ekp : k = Z.pos p) by lia.
      unfold M. rewrite iter_shr_clean by lia. rewrite Ekp. reflexivity.
    - replace k with 0 by lia.
      rewrite Z.sub_0_r, Z.add_0_r. reflexivity. }
  unfold binary_round_aux. rewrite H1.
  change (loc_of_shr_record (clean (c * 2 ^ (T - k)))) with loc_Exact.
  change (shr_m (clean (c * 2 ^ (T - k)))) with (c * 2 ^ (T - k)).
  change (round_nearest_even (c * 2 ^ (T - k)) loc_Exact) with (c * 2 ^ (T - k)).
  set (m1 := c * 2 ^ (T - k)).
  assert (Hm1 : 0 < m1) by (unfold m1; nia).
  assert (Hd1 : Zdigits2 m1 = Zdigits2 c + (T - k)) by (apply Zdigits2_shift; lia).
  assert (H2 : shr_fexp prec emax m1 (E + k) loc_Exact = (clean m1, E + k)).
  { unfold shr_fexp, shr. change (shr_record_of_loc m1 loc_Exact) with (clean m1).
    destruct (fexp prec emax (Zdigits2 m1 + (E + k)) - (E + k)) as [|p|p] eqn:Ek;
      try reflexivity.
    exfalso. unfold fexp, emin, prec, emax in *. lia. }
  rewrite H2. change (shr_m (clean m1)) with m1.
  destruct m1 as [|p|p] eqn:Ep; try lia.
  destruct (Z.leb_spec (E + k) (emax - prec)) as [_|Hc']; [|unfold emax, prec in Hc'; lia].
  exists p, (E + k). split; [reflexivity|]. split; [lia|].
  split; [unfold fexp, emin, prec, emax in Ek0; lia|].
  split.
  { cbn [Zdigits2] in Hd1. unfold fexp, emin, prec, emax in Ek0. lia. }
  rewrite <- Ep. unfold m1. do 2 f_equal. lia.
Qed.

Lemma dyadic_small x v j : dyadic x v j -> Py.finite x = true.
Proof. destruct x; cbn; tauto. Qed.

(** [float(n)] is [n] for an integer of at most 53 bits. *)
Lemma float_of_int_exact n :
  0 <= n -> Zdigits2 n <= 53 ->
  exists x, float_of_int n = Ok x /\ dyadic x n 0.
Proof.
  intros Hn Hd. unfold float_of_int.
  assert (H : dyadic (binary_normalize prec emax n 0 false) n 0).
  { destruct n as [|p|p]; [reflexivity| |lia].
    cbn [binary_normalize]. unfold binary_round. cbn [Zdigits2] in Hd.
    set (d := Z.pos (digits2_pos p)) in *.
    assert (Hd0 : 0 < d) by (unfold d; lia).
    unfold shl_align.
    destruct (fexp prec emax (d + 0) - 0) as [|q|q] eqn:Ef.
    - destruct (round_aux_exact false (Z.pos p) 0 0 ltac:(lia) Hd ltac:(lia) ltac:(lia)
                  ltac:(lia)) as (m & e & Hr & He & Hlo' & Hdm' & Hm).
      rewrite Z.mul_1_r in Hr. rewrite Hr. cbn [dyadic].
      split; [reflexivity|]. split; [lia|]. split; [exact Hdm'|]. rewrite Hm. do 2 f_equal. lia.
    - exfalso. unfold fexp, emin, prec, emax in Ef. lia.
    - rewrite iter_xO_value.
      assert (Eq : fexp prec emax (d + 0) = Z.neg q) by lia.
      rewrite Eq.
      destruct (round_aux_exact false (Z.pos p) (Z.pos q) (Z.neg q) ltac:(lia) Hd ltac:(lia)
                  ltac:(lia) ltac:(lia)) as (m & e & Hr & He & Hlo' & Hdm' & Hm).
      rewrite Hr. cbn [dyadic].
      split; [reflexivity|]. split; [lia|]. split; [exact Hdm'|]. rewrite Hm. do 2 f_equal. lia. }
  rewrite (dyadic_small _ _ _ H). eauto.
Qed.

(** [a / 256] is exact. *)
Lemma truediv_256_exact a :
  0 <= a -> Zdigits2 a <= 53 ->
  exists x, truediv a 256 = Ok x /\ dyadic x a 8.
Proof.
  intros Ha Hd. unfold truediv. change (256 =? 0) with false. cbv iota.
  assert (H : dyadic (SFdiv prec emax (exact a) (exact 256)) a 8).
  { destruct a as [|p|p]; [reflexivity| |lia].
    cbn [exact SFdiv]. unfold SFdiv_core_binary. cbn [Zdigits2] in Hd.
    change (Zdigits2 (Z.pos p)) with (Z.pos (digits2_pos p)).
    set (d := Z.pos (digits2_pos p)) in *.
    assert (Hd0 : 0 < d) by (unfold d; lia).
    change (Zdigits2 256) with 9.
    assert (Ee : Z.min (fexp prec emax (d + 0 - (9 + 0))) (0 - 0) = d - 62)
      by (unfold fexp, emin, prec, emax; lia).
    rewrite Ee.
    destruct (0 - 0 - (d - 62)) as [|s|s] eqn:Es; try lia.
    rewrite Z.shiftl_mul_pow2 by lia.
    assert (Hs : 8 <= Z.pos s) by lia.
    assert (Hdiv : Z.div_eucl (Z.pos p * 2 ^ Z.pos s) 256 = (Z.pos p * 2 ^ (Z.pos s - 8), 0)).
    { assert (E2 : Z.pos p * 2 ^ Z.pos s = Z.pos p * 2 ^ (Z.pos s - 8) * 256).
      { replace (Z.pos s) with ((Z.pos s - 8) + 8) at 1 by lia.
        rewrite Z.pow_add_r by lia. change (2 ^ 8) with 256. lia. }
      pose proof (Z_div_mod (Z.pos p * 2 ^ Z.pos s) 256 ltac:(lia)) as Hdm.
      destruct (Z.div_eucl (Z.pos p * 2 ^ Z.pos s) 256) as [q r].
      destruct Hdm as [Hq Hr].
      assert (q = Z.pos p * 2 ^ (Z.pos s - 8)) by lia.
      f_equal; lia. }
    rewrite Hdiv.
    change (new_location 256 0) with loc_Exact.
    destruct (round_aux_exact (xorb false false) (Z.pos p) (Z.pos s - 8) (d - 62)
                ltac:(lia) Hd ltac:(lia) ltac:(lia) ltac:(lia)) as (m & e & Hr & He & Hlo' & Hdm' & Hm).
    rewrite Hr. cbn [dyadic xorb].
    split; [reflexivity|]. split; [lia|]. split; [exact Hdm'|]. rewrite Hm. do 2 f_equal. lia. }
  rewrite (dyadic_small _ _ _ H). eauto.
Qed.

Lemma mul_exact x y v1 j1 v2 j2 :
  dyadic x v1 j1 -> dyadic y v2 j2 -> 0 <= v1 -> 0 <= v2 ->
  Zdigits2 (v1 * v2) <= 53 -> -971 <= j1 + j2 <= 1074 ->
  dyadic (SF64mul x y) (v1 * v2) (j1 + j2).
Proof.
  intros Hx Hy H1 H2 Hd Hj. unfold SF64mul, SFmul.
  destruct x as [sx|sx| |sx mx ex], y as [sy|sy| |sy my ey]; cbn [dyadic] in *;
    try contradiction; try (subst; lia).
  destruct Hx as (-> & [Hex0 Hex] & _ & Hmx). destruct Hy as (-> & [Hey0 Hey] & _ & Hmy).
  assert (P1 : 0 < 2 ^ (- j1 - ex)) by (apply Z.pow_pos_nonneg; lia).
  assert (P2 : 0 < 2 ^ (- j2 - ey)) by (apply Z.pow_pos_nonneg; lia).
  assert (Hv1 : 0 < v1) by nia. assert (Hv2 : 0 < v2) by nia.
  assert (EM : Z.pos (mx * my) = v1 * v2 * 2 ^ (- (j1 + j2) - (ex + ey))).
  { rewrite Pos2Z.inj_mul, Hmx, Hmy.
    replace (- (j1 + j2) - (ex + ey)) with ((- j1 - ex) + (- j2 - ey)) by lia.
    rewrite Z.pow_add_r by lia. lia. }
  rewrite EM.
  destruct (round_aux_exact (xorb false false) (v1 * v2) (- (j1 + j2) - (ex + ey)) (ex + ey)
              ltac:(nia) Hd ltac:(lia) ltac:(lia) ltac:(lia)) as (m & e & Hr & He & Hlo' & Hdm' & Hm).
  rewrite Hr. cbn [dyadic xorb].
  split; [reflexivity|]. split; [lia|]. split; [exact Hdm'|]. rewrite Hm. do 2 f_equal. lia.
Qed.

Lemma int_exact x v j : dyadic x v j -> 0 <= j -> 0 <= v -> Py.int x = Ok (v / 2 ^ j).
Proof.
  intros H Hj Hv. destruct x as [s|s| |s m e]; cbn [dyadic Py.int] in *; try contradiction.
  - subst v. rewrite Z.div_0_l; [reflexivity|]. apply Z.pow_nonzero; lia.
  - destruct H as (-> & [He0 He] & _ & Hm). cbn [cond_Zopp]. f_equal.
    rewrite Z.shiftl_div_pow2 by lia. rewrite Hm.
    replace (- e) with (j + (- j - e)) by lia.
    rewrite Z.pow_add_r by lia.
    assert (P1 : 0 < 2 ^ (- j - e)) by (apply Z.pow_pos_nonneg; lia).
    assert (P2 : 0 < 2 ^ j) by (apply Z.pow_pos_nonneg; lia).
    rewrite Z.div_mul_cancel_r by lia. reflexivity.
Qed.

Lemma Zdigits2_le_pow2 m k : 0 <= k -> 0 <= m < 2 ^ k -> Zdigits2 m <= k.
Proof. intros Hk H. apply Zdigits2_lt_pow2; [exact Hk|]. rewrite Z.abs_eq by lia. lia. Qed.

(** The constants of the store script's layout, scaled: [int(k * scale)]
    with [scale = effective_size / 256] is the integer
    [k * effective_size // 256], without any rounding error. *)
Lemma scaled_exact k eff scale :
  0 <= k < 2 ^ 8 -> 0 <= eff < 2 ^ 32 -> truediv eff 256 = Ok scale ->
  Store.scaled k scale = Ok (k * eff / 256).
Proof.
  intros Hk He Hs.
  destruct (truediv_256_exact eff ltac:(lia)) as (x & Ex & Hx).
  { apply Zdigits2_le_pow2 with (k := 53); [lia|].
    split; [lia|]. apply Z.lt_trans with (2 ^ 32); [lia|]. reflexivity. }
  rewrite Hs in Ex. injection Ex as <-.
  unfold Store.scaled, mul_int_float.
  destruct (float_of_int_exact k ltac:(lia)) as (fk & Ek & Hfk).
  { apply Zdigits2_le_pow2 with (k := 53); [lia|].
    split; [lia|]. apply Z.lt_trans with (2 ^ 8); [lia|]. reflexivity. }
  rewrite Ek. cbn [Py.bind].
  assert (Hprod : 0 <= k * eff < 2 ^ 40).
  { split; [nia|]. change (2 ^ 40) with (2 ^ 8 * 2 ^ 32). nia. }
  pose proof (mul_exact fk scale k 0 eff 8 Hfk Hx ltac:(lia) ltac:(lia)) as Hm.
  assert (Hd : Zdigits2 (k * eff) <= 53).
  { apply Zdigits2_le_pow2 with (k := 53); [lia|].
    split; [lia|]. apply Z.lt_trans with (2 ^ 40); [lia|]. reflexivity. }
  specialize (Hm Hd ltac:(lia)). cbn [Z.add] in Hm.
  rewrite (int_exact _ _ _ Hm ltac:(lia) ltac:(lia)). reflexivity.
Qed.



(** ** The layout in integers *)





Lemma Icon_layout env size img :
  Icon.create_budget_icon env size = Ok img ->
  exists circles f y,
    List.Forall2 (circle_at (size / 2) (Icon.circle_radius size))
      (range_down (Icon.circle_radius size)) circles /\
    Icon.resolve_font env size = Ok f /\
    Store.int_times size 0.58 = Ok y /\
    img = Image RGBA size size (0, 0, 0, 0) (circles ++ icon_calls env size f y).
Proof.
  unfold Icon.create_budget_icon. intros H.
  bind_inv H. apply new_inv in E. cbn [fst snd] in E. subst a.
  bind_inv H. apply fill_inv in E. destruct E as (circles & -> & HF).
  bind_inv H. rename a into f. rename E into Ef.
  destruct (textbbox env (0, 0) "$" f) as [[[b0 b1] b2] b3] eqn:Eb.
  bind_inv H. rename a into y. bind_inv H. injection H as <-.
  rewrite fold_draw. cbn [draw app].
  exists circles, f, y. split; [exact HF|]. split; [reflexivity|]. split; [exact E|].
  rewrite <- !app_assoc. cbn [app]. unfold icon_calls, glyph_position. rewrite Eb.
  unfold Icon.center, Icon.margin. reflexivity.
Qed.

Lemma Store_layout env size pr img p :
  Store.create_budget_icon env size pr = Ok img ->
  Store.padding size pr = Ok p -> 0 <= size - 2 * p < 2 ^ 32 ->
  exists circles f y,
    List.Forall2 (circle_at (size / 2) ((size - 2 * p) / 2))
      (range_down ((size - 2 * p) / 2)) circles /\
    (exists scale, truediv (size - 2 * p) 256 = Ok scale /\
                   Store.resolve_font env scale = Ok f) /\
    Store.int_times size 0.58 = Ok y /\
    img = Image RGBA size size (0, 0, 0, 0) (circles ++ store_calls env size p f y).
Proof.
  unfold Store.create_budget_icon. intros H Hp Heff.
  bind_inv H. apply new_inv in E. cbn [fst snd] in E. subst a.
  rewrite Hp in H. cbn [Py.bind] in H.
  bind_inv H. apply fill_inv in E. destruct E as (circles & -> & HF).
  bind_inv H. rename a into scale. rename E into Es.
  rewrite (scaled_exact 51 _ _ ltac:(lia) Heff Es), (scaled_exact 64 _ _ ltac:(lia) Heff Es),
    (scaled_exact 43 _ _ ltac:(lia) Heff Es), (scaled_exact 13 _ _ ltac:(lia) Heff Es),
    (scaled_exact 6 _ _ ltac:(lia) Heff Es) in H.
  cbn [Py.bind] in H.
  bind_inv H. rename a into f. rename E into Ef.
  destruct (textbbox env (0, 0) "$" f) as [[[b0 b1] b2] b3] eqn:Eb.
  bind_inv H. rename a into y.
  rewrite (scaled_exact 4 _ _ ltac:(lia) Heff Es), (scaled_exact 26 _ _ ltac:(lia) Heff Es),
    (scaled_exact 32 _ _ ltac:(lia) Heff Es) in H.
  cbn [Py.bind] in H. injection H as <-.
  rewrite fold_draw. cbn [draw app].
  exists circles, f, y. split; [exact HF|].
  split; [exists scale; split; [reflexivity|exact Ef]|]. split; [exact E|].
  rewrite <- !app_assoc. cbn [app]. unfold store_calls, glyph_position. rewrite Eb.
  unfold Store.center. reflexivity.
Qed.







(** ** The badge of the icon script at every size *)



(** ** The badge of the store script at every size *)



(** ** The composites at every canvas size *)







(** ** The shades of the gradient *)

Lemma shade_bounds lo d i j r :
  0 <= d -> 1 <= i <= j -> j <= r ->
  lo <= lo + d * i / r <= lo + d * j / r /\ lo + d * j / r <= lo + d /\
  (j = r -> lo + d * j / r = lo + d).
Proof.
  intros Hd Hi Hj.
  assert (H1 : 0 <= d * i / r) by (apply Z.div_pos; nia).
  assert (H2 : d * i / r <= d * j / r) by (apply Z.div_le_mono; nia).
  assert (H3 : d * j / r <= d) by (apply Z.div_le_upper_bound; nia).
  split; [lia|]. split; [lia|].
  intros ->. rewrite Z.div_mul by lia. reflexivity.
Qed.

(** X10: for every radius up to 160 (every size either script renders,
    and every size up to 320), the gradient runs from dark inside to light
    outside without a step back: of two circles of one gradient the larger
    one is at least as light in each channel; every channel stays between
    the dark green (46, 125, 50) and the light green (76, 175, 80); the
    outermost circle is exactly the light green; every circle is opaque. *)
Theorem gradient_shades (c r i j : Z) (inner outer : draw_op) :
  1 <= i <= j -> j <= r -> r <= 160 ->
  Gradient.circle c r i = Ok inner -> Gradient.circle c r j = Ok outer ->
  exists r1 g1 b1 r2 g2 b2,
    inner = Ellipse (c - i, c - i, c + i, c + i) (r1, g1, b1, 255) /\
    outer = Ellipse (c - j, c - j, c + j, c + j) (r2, g2, b2, 255) /\
    46 <= r1 <= r2 /\ r2 <= 76 /\ 125 <= g1 <= g2 /\ g2 <= 175 /\
    50 <= b1 <= b2 /\ b2 <= 80 /\
    (j = r -> (r2, g2, b2) = (76, 175, 80)).
Proof.
  intros Hi Hj Hr Ei Ej.
  apply circle_inv in Ei. apply circle_inv in Ej.
  apply circle_at_linear in Ei; [|lia|exact Hr].
  apply circle_at_linear in Ej; [|lia|exact Hr].
  change (76 - 46) with 30 in *. change (175 - 125) with 50 in *.
  change (80 - 50) with 30 in *.
  destruct (shade_bounds 46 30 i j r ltac:(lia) Hi Hj) as (R1 & R2 & R3).
  destruct (shade_bounds 125 50 i j r ltac:(lia) Hi Hj) as (G1 & G2 & G3).
  destruct (shade_bounds 50 30 i j r ltac:(lia) Hi Hj) as (B1 & B2 & B3).
  do 6 eexists. split; [exact Ei|]. split; [exact Ej|].
  repeat split; try lia.
  intros E. rewrite (R3 E), (G3 E), (B3 E). reflexivity.
Qed.

Lemma gradient_shades_witness :
  1 <= 3 <= 7 /\ 7 <= 7 /\ 7 <= 160 /\
  Gradient.circle 8 7 3 = Ok (Ellipse (5, 5, 11, 11) (58, 146, 62, 255)) /\
  Gradient.circle 8 7 7 = Ok (Ellipse (1, 1, 15, 15) (76, 175, 80, 255)) /\
  exists r1 g1 b1 r2 g2 b2,
    Ellipse (5, 5, 11, 11) (58, 146, 62, 255)
    = Ellipse (8 - 3, 8 - 3, 8 + 3, 8 + 3) (r1, g1, b1, 255) /\
    Ellipse (1, 1, 15, 15) (76, 175, 80, 255)
    = Ellipse (8 - 7, 8 - 7, 8 + 7, 8 + 7) (r2, g2, b2, 255) /\
    46 <= r1 <= r2 /\ r2 <= 76 /\ 125 <= g1 <= g2 /\ g2 <= 175 /\
    50 <= b1 <= b2 /\ b2 <= 80 /\
    (7 = 7 -> (r2, g2, b2) = (76, 175, 80)).
Proof.
  assert (H1 : 1 <= 3 <= 7) by lia.
  assert (H2 : 7 <= 7) by lia.
  assert (H3 : 7 <= 160) by lia.
  assert (E1 : Gradient.circle 8 7 3 = Ok (Ellipse (5, 5, 11, 11) (58, 146, 62, 255)))
    by (vm_compute; reflexivity).
  assert (E2 : Gradient.circle 8 7 7 = Ok (Ellipse (1, 1, 15, 15) (76, 175, 80, 255)))
    by (vm_compute; reflexivity).
  split; [exact H1|]. split; [exact H2|]. split; [exact H3|].
  split; [exact E1|]. split; [exact E2|].
  exact (gradient_shades 8 7 3 7 _ _ H1 H2 H3 E1 E2).
Defined.

Lemma truetype_chosen env sz :
  try_except (truetype env "segoeui.ttf" sz)
    (try_except (truetype env "arial.ttf" sz) (Ok load_default))
  = Ok (chosen_font env sz).
Proof.
  unfold truetype, chosen_font, try_except, load_default.
  destruct (Z.leb_spec sz 0) as [H|H], (Z.ltb_spec 0 sz) as [H'|H']; try lia;
    cbn [andb]; [reflexivity|].
  destruct (has_font env "segoeui.ttf"); [reflexivity|].
  destruct (has_font env "arial.ttf"); reflexivity.
Qed.

(** ** Sizes that are not positive *)

(** X11: the size is checked by the first statement of either
    [create_budget_icon]: a negative size raises [ValueError] before anything
    is drawn, whatever the fonts and the padding ratio.  Size 0 is accepted:
    the result is the empty canvas with no circle and the five other calls,
    drawn with Pillow's default font. *)
Theorem create_rejects_negative (env : environment) (size : Z) (pr : PrimFloat.float) :
  size <= 0 ->
  (size < 0 ->
   Icon.create_budget_icon env size = Raise ValueError /\
   Store.create_budget_icon env size pr = Raise ValueError) /\
  (size = 0 ->
   Icon.create_budget_icon env size
   = Ok (Image RGBA 0 0 (0, 0, 0, 0) (icon_calls env 0 DefaultFont 0)) /\
   (PrimFloat.leb 0 pr = true -> PrimFloat.ltb pr 1 = true ->
    Store.create_budget_icon env size pr
    = Ok (Image RGBA 0 0 (0, 0, 0, 0) (store_calls env 0 0 DefaultFont 0)))).
Proof.
  intros Hs. split.
  - intros Hneg. unfold Icon.create_budget_icon, Store.create_budget_icon, PIL.new.
    cbn [fst snd]. destruct (Z.ltb_spec size 0) as [_|Hc]; [|lia].
    cbn [orb Py.bind]. split; reflexivity.
  - intros ->. split.
    + destruct (Icon_create_ok env 0 ltac:(lia)) as [img E].
      destruct (Icon_layout env 0 img E) as (circles & f & y & HF & Ef & Ey & ->).
      rewrite E. f_equal.
      change (range_down (Icon.circle_radius 0)) with (@nil Z) in HF.
      inversion HF; subst. cbn [app].
      assert (y = 0) by (vm_compute in Ey; congruence). subst y.
      unfold Icon.resolve_font in Ef. rewrite truetype_chosen in Ef.
      injection Ef as <-. reflexivity.
    + intros H0 H1.
      pose proof (unit_interval_small pr H0 H1) as Hpr.
      destruct (Store_create_ok env 0 pr ltac:(lia) Hpr) as [img E].
      destruct (Store_padding_ok 0 pr ltac:(lia) Hpr) as (p & Ep & _).
      assert (p = 0).
      { unfold Store.padding, mul_int_float in Ep.
        change (float_of_int 0) with (Ok (S754_zero false)) in Ep. cbn [Py.bind] in Ep.
        unfold small_sf, literal in Hpr. unfold literal in Ep.
        destruct (Prim2SF pr) as [s|s| |s m e]; try contradiction;
          cbn [SF64mul SFmul Py.int] in Ep; congruence. }
      subst p.
      destruct (Store_layout env 0 pr img 0 E Ep ltac:(lia))
        as (circles & f & y & HF & (scale & Es & Ef) & Ey & ->).
      rewrite E. f_equal.
      change ((0 - 2 * 0) / 2) with 0 in HF. change (range_down 0) with (@nil Z) in HF.
      inversion HF; subst. cbn [app].
      assert (y = 0) by (vm_compute in Ey; congruence). subst y.
      assert (f = DefaultFont).
      { change (0 - 2 * 0) with 0 in Es.
        assert (Hsc : Store.scaled 85 scale = Ok 0)
          by (rewrite (scaled_exact 85 0 scale ltac:(lia) ltac:(lia) Es); reflexivity).
        unfold Store.resolve_font in Ef. rewrite Hsc in Ef. cbn [Py.bind] in Ef.
        rewrite truetype_chosen in Ef. injection Ef as <-. reflexivity. }
      subst f. reflexivity.
Qed.

Lemma create_rejects_negative_witness :
  -1 <= 0 /\
  (-1 < 0 ->
   Icon.create_budget_icon no_fonts (-1) = Raise ValueError /\
   Store.create_budget_icon no_fonts (-1) 0.1 = Raise ValueError) /\
  (-1 = 0 ->
   Icon.create_budget_icon no_fonts (-1)
   = Ok (Image RGBA 0 0 (0, 0, 0, 0) (icon_calls no_fonts 0 DefaultFont 0)) /\
   (PrimFloat.leb 0 0.1 = true -> PrimFloat.ltb 0.1 1 = true ->
    Store.create_budget_icon no_fonts (-1) 0.1
    = Ok (Image RGBA 0 0 (0, 0, 0, 0) (store_calls no_fonts 0 0 DefaultFont 0)))).
Proof.
  assert (H : -1 <= 0) by lia.
  split; [exact H|]. exact (create_rejects_negative no_fonts (-1) 0.1 H).
Defined.

(** ** The font of the glyph *)



(** ** Pixels no call reaches *)










(** ** The corners of the badge *)




(** ** The masked paste *)





